(** * Solutions.tsx: the solutions view of the interview assistant

    A shallow embedding of [src/_pages/Solutions.tsx]:

    - [Layout]: [getLayoutedElements], the wrapper around the dagre layout
      call, with its post-processing of edge-label offsets;
    - [Complexity]: [formatComplexity] of [ComplexitySection];
    - [View]: the [Solutions] component: its local state, the query cache it
      reads, the bridge event handlers it registers and what it renders.

    JavaScript numbers that carry coordinates are modelled as integers ([Z]);
    strings are [string]; [null] and [undefined] of a nullable field are
    [None] where the code does not tell them apart. *)

From Stdlib Require Import ZArith String Ascii Sorted Permutation.
From stdpp Require Import gmap strings list fin_maps.

Local Open Scope string_scope.
Local Open Scope Z_scope.

(* ===================================================================== *)
(** ** Graph layout *)
(* ===================================================================== *)

Module Layout.

(** [Position] of @xyflow/react, the side of a node a handle sits on. *)
Inductive Position := Left | Top | Right | Bottom.

Inductive LayoutDirection := TB | BT | LR | RL.

Inductive MarkerType := Arrow | ArrowClosed.

Record XY := { x : Z; y : Z }.

Record NodeStyle := {
  background : string;
  color : string;
  border : string;
  borderRadius : Z;
  node_fontWeight : string;
  padding : Z
}.

(** A [Node] of @xyflow/react. [node_other] stands for every property the
    function neither reads nor writes; the object spread [...node] copies
    it. *)
Record Node := {
  node_id : string;
  data_label : string;
  position : XY;
  sourcePosition : option Position;
  targetPosition : option Position;
  node_style : option NodeStyle;
  node_other : list (string * string)
}.

Record EdgeMarker := { marker_type : MarkerType; marker_color : string }.

Record EdgeStyle := { stroke : string; strokeWidth : Z }.

Record LabelStyle := {
  fill : string;
  fontWeight : Z;
  transform : string;
  fontSize : Z;
  maxWidth : Z;
  whiteSpace : string;
  wordWrap : string;
  overflowWrap : string;
  width : string
}.

Record LabelBgStyle := { fillOpacity : Z }.

(** An [Edge] of @xyflow/react; [label] is [None] when the property is
    absent ([undefined] or [null]). *)
Record Edge := {
  edge_id : string;
  source : string;
  target : string;
  label : option string;
  markerEnd : option EdgeMarker;
  edge_style : option EdgeStyle;
  labelStyle : option LabelStyle;
  labelBgStyle : option LabelBgStyle;
  labelBgPadding : option (Z * Z);
  labelBgBorderRadius : option Z;
  edge_other : list (string * string)
}.

Definition nodeWidth : Z := 120.
Definition nodeHeight : Z := 60.

(** *** The dagre graph handed to the layout library *)

Record GraphLabel := {
  rankdir : LayoutDirection;
  nodesep : Z;
  ranksep : Z;
  edgesep : Z;
  marginx : Z;
  marginy : Z
}.

Record NodeSize := { size_width : Z; size_height : Z }.

(** The graph as the sequence of [setGraph], [setNode] and [setEdge] calls
    it received: all the layout library gets to see. *)
Record DagreGraph := {
  graph_label : option GraphLabel;
  graph_nodes : list (string * NodeSize);
  graph_edges : list (string * string * Z)
}.

Definition newGraph : DagreGraph :=
  {| graph_label := None; graph_nodes := []; graph_edges := [] |}.

Definition setGraph (l : GraphLabel) (g : DagreGraph) : DagreGraph :=
  {| graph_label := Some l;
     graph_nodes := graph_nodes g;
     graph_edges := graph_edges g |}.

Definition setNode (g : DagreGraph) (id : string) (sz : NodeSize) : DagreGraph :=
  {| graph_label := graph_label g;
     graph_nodes := (graph_nodes g ++ [(id, sz)])%list;
     graph_edges := graph_edges g |}.

Definition setEdge (g : DagreGraph) (v w : string) (minlen : Z) : DagreGraph :=
  {| graph_label := graph_label g;
     graph_nodes := graph_nodes g;
     graph_edges := (graph_edges g ++ [(v, w, minlen)])%list |}.

(** *** Fan-out bookkeeping *)

(** An entry [{ targetId, x }] of [sourceToTargets]. *)
Record FanoutTarget := { targetId : string; target_x : Z }.

(** One step of [[...fanout].sort((a, b) => a.x - b.x)]: [Array.prototype.sort]
    is stable, so an entry goes in front of the first entry that is not
    smaller. *)
Fixpoint insertByX (a : FanoutTarget) (l : list FanoutTarget) : list FanoutTarget :=
  match l with
  | [] => [a]
  | b :: l' =>
      if (target_x a - target_x b) <=? 0 then a :: b :: l'
      else b :: insertByX a l'
  end.

Definition sortByX (l : list FanoutTarget) : list FanoutTarget :=
  foldr insertByX [] l.

(** [sorted.findIndex((t) => t.targetId === id)], [-1] when nothing matches. *)
Definition findIndex (id : string) (sorted : list FanoutTarget) : Z :=
  match list_find (λ t, targetId t = id) sorted with
  | Some (i, _) => Z.of_nat i
  | None => -1
  end.

Section WithDagre.

(** [dagre.layout(g)] followed by [g.node(id)]: the centre the library
    computed for the node [id] of the graph [g]. The library is external;
    nothing is assumed about it. *)
Variable dagre_layout : DagreGraph → string → XY.

Definition isHorizontal (direction : LayoutDirection) : bool :=
  match direction with LR | RL => true | _ => false end.

Definition buildGraph (nodes : list Node) (edges : list Edge)
    (direction : LayoutDirection) : DagreGraph :=
  let g0 := setGraph {| rankdir := direction; nodesep := 80; ranksep := 100;
                        edgesep := 40; marginx := 20; marginy := 20 |} newGraph in
  let g1 := foldl (λ g node,
                     setNode g (node_id node)
                       {| size_width := nodeWidth; size_height := nodeHeight |})
                  g0 nodes in
  foldl (λ g edge, setEdge g (source edge) (target edge) 1) g1 edges.

(** The callback of [nodes.map]: it records the centre in [nodeMap] and
    returns the node with its fields overwritten. *)
Definition layoutNode (g : DagreGraph) (direction : LayoutDirection)
    (nodeMap : gmap string XY) (node : Node) : Node * gmap string XY :=
  let c := dagre_layout g (node_id node) in
  ({| node_id := node_id node;
      data_label := data_label node;
      position := {| x := x c - nodeWidth / 2; y := y c - nodeHeight / 2 |};
      sourcePosition := Some (if isHorizontal direction then Right else Bottom);
      targetPosition := Some (if isHorizontal direction then Left else Top);
      node_style := Some {| background := "#06b6d4";
                            color := "#ffffff";
                            border := "2px solid #0891b2";
                            borderRadius := 8;
                            node_fontWeight := "bold";
                            padding := 10 |};
      node_other := node_other node |},
   <[node_id node := c]> nodeMap).

Fixpoint layoutNodes (g : DagreGraph) (direction : LayoutDirection)
    (nodeMap : gmap string XY) (nodes : list Node) : list Node * gmap string XY :=
  match nodes with
  | [] => ([], nodeMap)
  | node :: rest =>
      let '(node', nodeMap') := layoutNode g direction nodeMap node in
      let '(rest', nodeMap'') := layoutNodes g direction nodeMap' rest in
      (node' :: rest', nodeMap'')
  end.

(** The names every plain object inherits from [Object.prototype]. Looked
    up in the object literal [sourceToTargets], each gives a function or,
    for [__proto__], the prototype itself: a truthy value with no [push]. *)
Definition objectPrototypeMembers : list string :=
  [ "constructor"; "__defineGetter__"; "__defineSetter__"; "hasOwnProperty";
    "__lookupGetter__"; "__lookupSetter__"; "isPrototypeOf";
    "propertyIsEnumerable"; "toString"; "valueOf"; "__proto__";
    "toLocaleString" ].

(** What [sourceToTargets[key]] evaluates to. *)
Inductive PropertyValue :=
  | OwnArray (entries : list FanoutTarget)
  | Inherited
  | Missing.

Definition getProperty (sourceToTargets : gmap string (list FanoutTarget))
    (key : string) : PropertyValue :=
  match sourceToTargets !! key with
  | Some entries => OwnArray entries
  | None =>
      if bool_decide (key ∈ objectPrototypeMembers) then Inherited else Missing
  end.

(** The callback of the second [edges.forEach]; [None] is the [TypeError]
    it throws when [edge.source] names an inherited member: the value is
    truthy, so no array is stored, and [push] is not a function of it. *)
Definition pushFanout (nodeMap : gmap string XY)
    (sourceToTargets : gmap string (list FanoutTarget)) (edge : Edge)
    : option (gmap string (list FanoutTarget)) :=
  let targetX := match nodeMap !! target edge with
                 | Some p => x p
                 | None => 0
                 end in
  let entry := {| targetId := target edge; target_x := targetX |} in
  match getProperty sourceToTargets (source edge) with
  | Inherited => None
  | OwnArray entries =>
      Some (<[source edge := (entries ++ [entry])%list]> sourceToTargets)
  | Missing =>
      Some (<[source edge := ([] ++ [entry])%list]>
              (<[source edge := []]> sourceToTargets))
  end.

(** The second [edges.forEach]: it stops at the first edge that throws. *)
Definition buildFanout (nodeMap : gmap string XY) (edges : list Edge)
    : option (gmap string (list FanoutTarget)) :=
  foldl (λ acc edge, acc ≫= λ sourceToTargets, pushFanout nodeMap sourceToTargets edge)
        (Some ∅) edges.

(** The [transform] computed for the label of [edge]. The function computes
    it for the edges of the list only, after [buildFanout] has gone through
    all of them without throwing: [sourceToTargets[edge.source]] is then an
    own property, the array stored for the source (lemma
    [buildFanout_own_arrays]), and never an inherited member. *)
Definition labelTransform (direction : LayoutDirection)
    (nodeMap : gmap string XY)
    (sourceToTargets : gmap string (list FanoutTarget)) (edge : Edge) : string :=
  match direction, nodeMap !! source edge, nodeMap !! target edge with
  | TB, Some sourcePos, Some targetPos =>
      let single :=
        if x sourcePos <? x targetPos then "translate(-100px, -16px)"
        else if x targetPos <? x sourcePos then "translate(100px, -16px)"
        else "translate(0px, -16px)" in
      match sourceToTargets !! source edge with
      | Some fanout =>
          if 1 <? Z.of_nat (length fanout) then
            let sorted := sortByX fanout in
            let index := findIndex (target edge) sorted in
            if index =? 0 then "translate(-100px, -16px)"
            else if index =? Z.of_nat (length sorted) - 1 then "translate(100px, -16px)"
            else "translate(0px, -20px)"
          else single
      | None => single
      end
  | _, _, _ => "translate(0px, -16px)"
  end.

(** The callback of [edges.map]. *)
Definition layoutEdge (direction : LayoutDirection)
    (nodeMap : gmap string XY)
    (sourceToTargets : gmap string (list FanoutTarget)) (edge : Edge) : Edge :=
  {| edge_id := edge_id edge;
     source := source edge;
     target := target edge;
     label := Some (default "" (label edge));
     markerEnd := Some {| marker_type := ArrowClosed; marker_color := "#ec4899" |};
     edge_style := Some {| stroke := "#ec4899"; strokeWidth := 2 |};
     labelStyle := Some {| fill := "#fef9c3";
                           fontWeight := 600;
                           transform := labelTransform direction nodeMap sourceToTargets edge;
                           fontSize := 14;
                           maxWidth := 50;
                           whiteSpace := "normal";
                           wordWrap := "break-word";
                           overflowWrap := "break-word";
                           width := "50px" |};
     labelBgStyle := Some {| fillOpacity := 0 |};
     labelBgPadding := Some (4, 2);
     labelBgBorderRadius := Some 4;
     edge_other := edge_other edge |}.

(** [None] when the function throws instead of returning. *)
Definition getLayoutedElements (nodes : list Node) (edges : list Edge)
    (direction : LayoutDirection) : option (list Node * list Edge) :=
  let dagreGraph := buildGraph nodes edges direction in
  let '(layoutedNodes, nodeMap) := layoutNodes dagreGraph direction ∅ nodes in
  sourceToTargets ← buildFanout nodeMap edges;
  let layoutedEdges := map (layoutEdge direction nodeMap sourceToTargets) edges in
  Some (layoutedNodes, layoutedEdges).

End WithDagre.

(** *** The mock diagram of [systemDesignSoltionData] *)

Definition mkNode (id lbl : string) (px py : Z) : Node :=
  {| node_id := id; data_label := lbl; position := {| x := px; y := py |};
     sourcePosition := None; targetPosition := None; node_style := None;
     node_other := [] |}.

Definition mkEdge (id s t lbl : string) : Edge :=
  {| edge_id := id; source := s; target := t; label := Some lbl;
     markerEnd := None; edge_style := None; labelStyle := None;
     labelBgStyle := None; labelBgPadding := None; labelBgBorderRadius := None;
     edge_other := [] |}.

Definition mockNodes : list Node :=
  [ mkNode "1" "API Gateway" 0 0;
    mkNode "2" "Upload Service" 200 0;
    mkNode "3" "File Storage (S3)" 400 (-100);
    mkNode "4" "Submission Metadata DB" 400 100;
    mkNode "5" "Scan Orchestrator" 600 0;
    mkNode "6" "Engine A (AV)" 800 (-150);
    mkNode "7" "Engine B (Static)" 800 0;
    mkNode "8" "Engine C (Sandbox)" 800 150;
    mkNode "9" "Result Aggregator" 1000 0;
    mkNode "10" "Scan Result DB" 1200 0;
    mkNode "11" "Search & Query API" 1400 0 ].

Definition mockEdges : list Edge :=
  [ mkEdge "e1-2" "1" "2" "Submit file or URL";
    mkEdge "e2-3" "2" "3" "Store binary";
    mkEdge "e2-4" "2" "4" "Save metadata";
    mkEdge "e4-5" "4" "5" "Queue scan job";
    mkEdge "e5-6" "5" "6" "Dispatch to AV engine";
    mkEdge "e5-7" "5" "7" "Dispatch to static engine";
    mkEdge "e5-8" "5" "8" "Dispatch to sandbox engine";
    mkEdge "e6-9" "6" "9" "Return scan result";
    mkEdge "e7-9" "7" "9" "Return scan result";
    mkEdge "e8-9" "8" "9" "Return scan result";
    mkEdge "e9-10" "9" "10" "Persist aggregated result";
    mkEdge "e10-11" "10" "11" "Serve query" ].

(** A layout the library could return for the mock diagram: ranks 160
    apart, the nodes of a rank 200 apart. Used to run the function. *)
Definition sampleLayout (_ : DagreGraph) (id : string) : XY :=
  if String.eqb id "1" then {| x := 280; y := 50 |}
  else if String.eqb id "2" then {| x := 280; y := 210 |}
  else if String.eqb id "3" then {| x := 180; y := 370 |}
  else if String.eqb id "4" then {| x := 380; y := 370 |}
  else if String.eqb id "5" then {| x := 380; y := 530 |}
  else if String.eqb id "6" then {| x := 180; y := 690 |}
  else if String.eqb id "7" then {| x := 380; y := 690 |}
  else if String.eqb id "8" then {| x := 580; y := 690 |}
  else if String.eqb id "9" then {| x := 380; y := 850 |}
  else if String.eqb id "10" then {| x := 380; y := 1010 |}
  else if String.eqb id "11" then {| x := 380; y := 1170 |}
  else {| x := 0; y := 0 |}.

End Layout.

(* ===================================================================== *)
(** ** Complexity formatting *)
(* ===================================================================== *)

Module Complexity.

(** The regular expression [/O\([^)]+\)/i]. The characters it tells apart
    are ASCII, so it matches a string exactly when it matches the string's
    UTF-8 bytes. *)

Definition isO (c : ascii) : bool :=
  (Ascii.eqb c "O" || Ascii.eqb c "o")%bool.

Definition isClose (c : ascii) : bool := Ascii.eqb c ")".

Fixpoint hasClose (s : string) : bool :=
  match s with
  | EmptyString => false
  | String c s' => (isClose c || hasClose s')%bool
  end.

(** The expression matches at the start of [s]: an [O], an opening
    parenthesis, one character that is not a closing parenthesis, and a
    closing parenthesis somewhere after it (the greedy [[^)]+] stops at the
    first one). *)
Definition matchBigOHere (s : string) : bool :=
  match s with
  | String o (String p (String c rest)) =>
      (isO o && Ascii.eqb p "(" && negb (isClose c) && hasClose rest)%bool
  | _ => false
  end.

(** [complexity.match(/O\([^)]+\)/i)] finds a match at some position. *)
Fixpoint matchBigO (s : string) : bool :=
  (matchBigOHere s ||
   match s with
   | EmptyString => false
   | String _ s' => matchBigO s'
   end)%bool.

(** [complexity : string | null]; [!complexity] holds for [null] and for
    the empty string. *)
Definition formatComplexity (complexity : option string) : string :=
  match complexity with
  | None => "O(n) - Linear time/space complexity"
  | Some "" => "O(n) - Linear time/space complexity"
  | Some s => if matchBigO s then s else "O(n) - " ++ s
  end.

(** What the regular expression means: the string has a factor [o ( mid )]
    with [o] one of [O] and [o], [mid] not empty and free of closing
    parentheses. *)
Definition containsBigO (s : string) : Prop :=
  ∃ (pre : string) (o : ascii) (mid post : string),
    s = pre ++ String o ("(" ++ mid ++ ")" ++ post)
    ∧ (o = "O"%char ∨ o = "o"%char)
    ∧ mid ≠ ""
    ∧ hasClose mid = false.

End Complexity.

(* ===================================================================== *)
(** ** The Solutions component *)
(* ===================================================================== *)

Module View.

(** *** JavaScript values held by the cache and the local state *)

#[warnings="-register-all"] Inductive JsValue :=
  | JUndefined
  | JNull
  | JBool (b : bool)
  | JNum (n : Z)
  | JStr (s : string)
  | JArr (items : list JsValue)
  | JObj (props : list (string * JsValue)).

(** [!!v] *)
Definition truthy (v : JsValue) : bool :=
  match v with
  | JUndefined | JNull => false
  | JBool b => b
  | JNum n => negb (n =? 0)
  | JStr s => negb (String.eqb s "")
  | JArr _ | JObj _ => true
  end.

(** [a || b] *)
Definition orElse (a b : JsValue) : JsValue := if truthy a then a else b.

(** [a ?? b] *)
Definition nullish (a b : JsValue) : JsValue :=
  match a with
  | JUndefined | JNull => b
  | _ => a
  end.

Fixpoint lookupProp (name : string) (props : list (string * JsValue)) : JsValue :=
  match props with
  | [] => JUndefined
  | (k, v) :: rest => if String.eqb k name then v else lookupProp name rest
  end.

(** [v.name] for the property names read by this file, none of which a
    string, a number, a boolean or an array has. *)
Definition getProp (v : JsValue) (name : string) : JsValue :=
  match v with
  | JObj props => lookupProp name props
  | _ => JUndefined
  end.

(** [v?.name] *)
Definition optChain (v : JsValue) (name : string) : JsValue :=
  match v with
  | JUndefined | JNull => JUndefined
  | _ => getProp v name
  end.

(** *** The query cache *)

Definition QueryKey : Type := list string.

Record Query := { queryKey : QueryKey; query_data : JsValue }.

Inductive NotifyType := added | removed | updated.

Record CacheEvent := { event_type : NotifyType; event_query : Query }.

(** A filter [{ queryKey }] matches every query whose key starts with it. *)
Fixpoint partialMatchKey (key filterKey : QueryKey) : bool :=
  match filterKey, key with
  | [], _ => true
  | f :: filterKey', k :: key' => (String.eqb k f && partialMatchKey key' filterKey')%bool
  | _ :: _, [] => false
  end.

Definition sameKey (key : QueryKey) (q : Query) : bool :=
  bool_decide (queryKey q = key).

Definition findQuery (key : QueryKey) (cache : list Query) : option Query :=
  find (sameKey key) cache.

(** *** Local state and the world around it *)

Record Screenshot := {
  screenshot_id : string;
  screenshot_path : string;
  screenshot_preview : string;
  screenshot_timestamp : Z
}.

Record Toast := {
  toast_title : string;
  toast_description : string;
  toast_variant : string
}.

(** The argument of the [setView] prop. *)
Inductive ViewName := queue | solutions | debug.

(** Work a handler leaves for later: the [setTimeout] callback of the reset
    handler and the screenshot fetch of the success handler. *)
Inductive Task := ClearResetting | FetchScreenshots.

(** The [useState] cells of [Solutions]. *)
Record State := {
  debugProcessing : bool;
  problemStatementData : JsValue;
  activeSystemDesignSolutionTab : string;
  solutionData : JsValue;
  thoughtsData : JsValue;
  timeComplexityData : JsValue;
  spaceComplexityData : JsValue;
  isTooltipVisible : bool;
  tooltipHeight : Z;
  isResetting : bool;
  extraScreenshots : list Screenshot
}.

Definition initialState : State :=
  {| debugProcessing := false;
     problemStatementData := JNull;
     activeSystemDesignSolutionTab := "Diagram";
     solutionData := JNull;
     thoughtsData := JNull;
     timeComplexityData := JNull;
     spaceComplexityData := JNull;
     isTooltipVisible := false;
     tooltipHeight := 0;
     isResetting := false;
     extraScreenshots := [] |}.

(** Everything a handler of the component can touch: its own state, the
    query cache, the parent's current view, the toasts shown, the console
    and the work left for later. *)
Record World := {
  state : State;
  queryCache : list Query;
  view : ViewName;
  toasts : list Toast;
  console : list string;
  tasks : list Task
}.

Definition M (A : Type) : Type := World → A * World.

#[global] Instance M_ret : MRet M := λ A a w, (a, w).
#[global] Instance M_bind : MBind M :=
  λ A B f m w, let '(a, w') := m w in f a w'.

(** The world a handler leaves behind. *)
Definition exec {A} (m : M A) (w : World) : World := snd (m w).

Definition skip : M unit := mret tt.

Definition setState (f : State → State) : M unit :=
  λ w, (tt, {| state := f (state w); queryCache := queryCache w; view := view w;
               toasts := toasts w; console := console w; tasks := tasks w |}).

Definition getCache : M (list Query) := λ w, (queryCache w, w).

Definition putCache (cache : list Query) : M unit :=
  λ w, (tt, {| state := state w; queryCache := cache; view := view w;
               toasts := toasts w; console := console w; tasks := tasks w |}).

Definition setView (v : ViewName) : M unit :=
  λ w, (tt, {| state := state w; queryCache := queryCache w; view := v;
               toasts := toasts w; console := console w; tasks := tasks w |}).

Definition showToast (title description variant : string) : M unit :=
  λ w, (tt, {| state := state w; queryCache := queryCache w; view := view w;
               toasts := (toasts w ++ [ {| toast_title := title;
                                           toast_description := description;
                                           toast_variant := variant |} ])%list;
               console := console w; tasks := tasks w |}).

Definition consoleWrite (line : string) : M unit :=
  λ w, (tt, {| state := state w; queryCache := queryCache w; view := view w;
               toasts := toasts w; console := (console w ++ [line])%list;
               tasks := tasks w |}).

Definition defer (t : Task) : M unit :=
  λ w, (tt, {| state := state w; queryCache := queryCache w; view := view w;
               toasts := toasts w; console := console w;
               tasks := (tasks w ++ [t])%list |}).

(** The [useState] setters. *)

Definition setDebugProcessing (v : bool) : M unit :=
  setState (λ s,
    {| debugProcessing := v;
       problemStatementData := problemStatementData s;
       activeSystemDesignSolutionTab := activeSystemDesignSolutionTab s;
       solutionData := solutionData s; thoughtsData := thoughtsData s;
       timeComplexityData := timeComplexityData s;
       spaceComplexityData := spaceComplexityData s;
       isTooltipVisible := isTooltipVisible s; tooltipHeight := tooltipHeight s;
       isResetting := isResetting s; extraScreenshots := extraScreenshots s |}).

Definition setProblemStatementData (v : JsValue) : M unit :=
  setState (λ s,
    {| debugProcessing := debugProcessing s;
       problemStatementData := v;
       activeSystemDesignSolutionTab := activeSystemDesignSolutionTab s;
       solutionData := solutionData s; thoughtsData := thoughtsData s;
       timeComplexityData := timeComplexityData s;
       spaceComplexityData := spaceComplexityData s;
       isTooltipVisible := isTooltipVisible s; tooltipHeight := tooltipHeight s;
       isResetting := isResetting s; extraScreenshots := extraScreenshots s |}).

Definition setActiveSystemDesignSolutionTab (v : string) : M unit :=
  setState (λ s,
    {| debugProcessing := debugProcessing s;
       problemStatementData := problemStatementData s;
       activeSystemDesignSolutionTab := v;
       solutionData := solutionData s; thoughtsData := thoughtsData s;
       timeComplexityData := timeComplexityData s;
       spaceComplexityData := spaceComplexityData s;
       isTooltipVisible := isTooltipVisible s; tooltipHeight := tooltipHeight s;
       isResetting := isResetting s; extraScreenshots := extraScreenshots s |}).

Definition setSolutionData (v : JsValue) : M unit :=
  setState (λ s,
    {| debugProcessing := debugProcessing s;
       problemStatementData := problemStatementData s;
       activeSystemDesignSolutionTab := activeSystemDesignSolutionTab s;
       solutionData := v; thoughtsData := thoughtsData s;
       timeComplexityData := timeComplexityData s;
       spaceComplexityData := spaceComplexityData s;
       isTooltipVisible := isTooltipVisible s; tooltipHeight := tooltipHeight s;
       isResetting := isResetting s; extraScreenshots := extraScreenshots s |}).

Definition setThoughtsData (v : JsValue) : M unit :=
  setState (λ s,
    {| debugProcessing := debugProcessing s;
       problemStatementData := problemStatementData s;
       activeSystemDesignSolutionTab := activeSystemDesignSolutionTab s;
       solutionData := solutionData s; thoughtsData := v;
       timeComplexityData := timeComplexityData s;
       spaceComplexityData := spaceComplexityData s;
       isTooltipVisible := isTooltipVisible s; tooltipHeight := tooltipHeight s;
       isResetting := isResetting s; extraScreenshots := extraScreenshots s |}).

Definition setTimeComplexityData (v : JsValue) : M unit :=
  setState (λ s,
    {| debugProcessing := debugProcessing s;
       problemStatementData := problemStatementData s;
       activeSystemDesignSolutionTab := activeSystemDesignSolutionTab s;
       solutionData := solutionData s; thoughtsData := thoughtsData s;
       timeComplexityData := v;
       spaceComplexityData := spaceComplexityData s;
       isTooltipVisible := isTooltipVisible s; tooltipHeight := tooltipHeight s;
       isResetting := isResetting s; extraScreenshots := extraScreenshots s |}).

Definition setSpaceComplexityData (v : JsValue) : M unit :=
  setState (λ s,
    {| debugProcessing := debugProcessing s;
       problemStatementData := problemStatementData s;
       activeSystemDesignSolutionTab := activeSystemDesignSolutionTab s;
       solutionData := solutionData s; thoughtsData := thoughtsData s;
       timeComplexityData := timeComplexityData s;
       spaceComplexityData := v;
       isTooltipVisible := isTooltipVisible s; tooltipHeight := tooltipHeight s;
       isResetting := isResetting s; extraScreenshots := extraScreenshots s |}).

Definition setIsResetting (v : bool) : M unit :=
  setState (λ s,
    {| debugProcessing := debugProcessing s;
       problemStatementData := problemStatementData s;
       activeSystemDesignSolutionTab := activeSystemDesignSolutionTab s;
       solutionData := solutionData s; thoughtsData := thoughtsData s;
       timeComplexityData := timeComplexityData s;
       spaceComplexityData := spaceComplexityData s;
       isTooltipVisible := isTooltipVisible s; tooltipHeight := tooltipHeight s;
       isResetting := v; extraScreenshots := extraScreenshots s |}).

Definition setExtraScreenshots (v : list Screenshot) : M unit :=
  setState (λ s,
    {| debugProcessing := debugProcessing s;
       problemStatementData := problemStatementData s;
       activeSystemDesignSolutionTab := activeSystemDesignSolutionTab s;
       solutionData := solutionData s; thoughtsData := thoughtsData s;
       timeComplexityData := timeComplexityData s;
       spaceComplexityData := spaceComplexityData s;
       isTooltipVisible := isTooltipVisible s; tooltipHeight := tooltipHeight s;
       isResetting := isResetting s; extraScreenshots := v |}).

(** *** The query client *)

(** [queryClient.getQueryData(key)]: the data of the query stored under
    exactly [key], [undefined] when there is none. *)
Definition getQueryData (key : QueryKey) : M JsValue :=
  cache ← getCache;
  mret (match findQuery key cache with
        | Some q => query_data q
        | None => JUndefined
        end).

Section QueryClient.

(** The listener registered with [getQueryCache().subscribe]; the cache
    calls it synchronously on every change. *)
Variable listener : option CacheEvent → M unit.

Definition notify (type : NotifyType) (q : Query) : M unit :=
  listener (Some {| event_type := type; event_query := q |}).

(** [queryCache.remove(query)] for each query found. *)
Fixpoint removeEach (found : list Query) : M unit :=
  match found with
  | [] => skip
  | q :: rest =>
      cache ← getCache;
      putCache (filter (λ q', sameKey (queryKey q) q' = false) cache) ;;
      notify removed q ;;
      removeEach rest
  end.

(** [queryClient.removeQueries({ queryKey })] *)
Definition removeQueries (filterKey : QueryKey) : M unit :=
  cache ← getCache;
  removeEach (filter (λ q, partialMatchKey (queryKey q) filterKey = true) cache).

(** [queryClient.setQueryData(key, data)]: nothing happens for [undefined];
    otherwise the query is created when missing and its data replaced. *)
Definition setQueryData (key : QueryKey) (data : JsValue) : M unit :=
  match data with
  | JUndefined => skip
  | _ =>
      cache ← getCache;
      (match findQuery key cache with
       | Some _ => skip
       | None =>
           putCache (cache ++ [ {| queryKey := key; query_data := JUndefined |} ])%list ;;
           notify added {| queryKey := key; query_data := JUndefined |}
       end) ;;
      cache' ← getCache;
      putCache (map (λ q, if sameKey key q
                          then {| queryKey := key; query_data := data |}
                          else q) cache') ;;
      notify updated {| queryKey := key; query_data := data |}
  end.

End QueryClient.

(** *** The cache subscription of the component *)

Definition keyHeadIs (event : option CacheEvent) (name : string) : bool :=
  match event with
  | Some ev =>
      match queryKey (event_query ev) with
      | k :: _ => String.eqb k name
      | [] => false
      end
  | None => false
  end.

Definition subscriber (event : option CacheEvent) : M unit :=
  (if keyHeadIs event "problem_statement" then
     cached ← getQueryData ["problem_statement"];
     setProblemStatementData (orElse cached JNull)
   else skip) ;;
  (if keyHeadIs event "solution" then
     solution ← getQueryData ["solution"];
     setSolutionData (nullish (optChain solution "code") JNull) ;;
     setThoughtsData (nullish (optChain solution "thoughts") JNull) ;;
     setTimeComplexityData (nullish (optChain solution "time_complexity") JNull) ;;
     setSpaceComplexityData (nullish (optChain solution "space_complexity") JNull)
   else skip).

(** The body of the effect that subscribes. *)
Definition onMount : M unit :=
  cached ← getQueryData ["problem_statement"];
  setProblemStatementData (orElse cached JNull) ;;
  solution ← getQueryData ["solution"];
  setSolutionData (orElse solution JNull).

(** *** The bridge event handlers *)

Definition onResetView : M unit :=
  setIsResetting true ;;
  removeQueries subscriber ["solution"] ;;
  removeQueries subscriber ["new_solution"] ;;
  setExtraScreenshots [] ;;
  defer ClearResetting.

Definition onSolutionStart : M unit :=
  setSolutionData JNull ;;
  setThoughtsData JNull ;;
  setTimeComplexityData JNull ;;
  setSpaceComplexityData JNull.

Definition onProblemExtracted (data : JsValue) : M unit :=
  setQueryData subscriber ["problem_statement"] data.

Definition onSolutionError (error : string) : M unit :=
  showToast "Processing Failed" error "error" ;;
  solution ← getQueryData ["solution"];
  (if negb (truthy solution) then setView queue else skip) ;;
  setSolutionData (orElse (optChain solution "code") JNull) ;;
  setThoughtsData (orElse (optChain solution "thoughts") JNull) ;;
  setTimeComplexityData (orElse (optChain solution "time_complexity") JNull) ;;
  setSpaceComplexityData (orElse (optChain solution "space_complexity") JNull) ;;
  consoleWrite ("Processing error: " ++ error).

Definition onSolutionSuccess (data : JsValue) : M unit :=
  if negb (truthy data) then
    consoleWrite "Received empty or invalid solution data"
  else
    consoleWrite "{ data }" ;;
    let solutionData :=
      JObj [ ("code", getProp data "code");
             ("thoughts", getProp data "thoughts");
             ("time_complexity", getProp data "time_complexity");
             ("space_complexity", getProp data "space_complexity") ] in
    setQueryData subscriber ["solution"] solutionData ;;
    setSolutionData (orElse (getProp solutionData "code") JNull) ;;
    setThoughtsData (orElse (getProp solutionData "thoughts") JNull) ;;
    setTimeComplexityData (orElse (getProp solutionData "time_complexity") JNull) ;;
    setSpaceComplexityData (orElse (getProp solutionData "space_complexity") JNull) ;;
    defer FetchScreenshots.

Definition onDebugStart : M unit := setDebugProcessing true.

Definition onDebugSuccess (data : JsValue) : M unit :=
  setQueryData subscriber ["new_solution"] data ;;
  setDebugProcessing false.

Definition onDebugError : M unit :=
  showToast "Processing Failed" "There was an error debugging your code." "error" ;;
  setDebugProcessing false.

Definition onProcessingNoScreenshots : M unit :=
  showToast "No Screenshots" "There are no extra screenshots to process." "neutral".

(** The callback handed to [setTimeout] by the reset handler. *)
Definition onResetTimeout : M unit := setIsResetting false.

(** A click on the tab button [tab]. *)
Definition onTabClick (tab : string) : M unit :=
  setActiveSystemDesignSolutionTab tab.

(** *** Rendering *)

Record Props := {
  credits : Z;
  currentLanguage : string;
  currentInterviewMode : string
}.

Definition TABS : list string :=
  ["Description"; "Requirements"; "Diagram"; "Database Schema"; "Tradeoff"].

(** The child components [Solutions] returns, with the props that depend
    on its state. [DiagramTab] is the steps walkthrough next to the
    [ReactFlow] diagram; [Text] is a bare text node. *)
Inductive Element :=
  | Text (s : string)
  | DebugView (isProcessing : bool) (language mode : string)
  | ScreenshotQueue (isLoading : bool) (screenshots : list Screenshot)
  | SolutionCommands (isProcessing : bool) (screenshots : list Screenshot)
      (credits : Z) (language mode : string)
  | ProblemStatementSection (content : JsValue) (isLoading : bool)
  | GeneratingSolutions
  | ThoughtsSection (thoughts : JsValue) (isLoading : bool)
  | SolutionSection (content : JsValue) (isLoading : bool) (language : string)
  | ComplexitySection (timeComplexity spaceComplexity : JsValue) (isLoading : bool)
  | TabBar (tabs : list string) (active : string)
  | DiagramTab (nodes : list Layout.Node) (edges : list Layout.Edge)
  | SystemDesignDescriptionSection
  | RequirementsSection
  | DatabaseSchema
  | TradeOffSession.

(** [{cond && children}]: a falsy [cond] is rendered itself, which shows
    nothing except for the number zero. *)
Definition jsxAnd (cond : JsValue) (children : list Element) : list Element :=
  if truthy cond then children
  else match cond with
       | JNum _ => [Text "0"]
       | _ => []
       end.

(** [{cond && children}] for a boolean [cond]. *)
Definition jsxWhen (cond : bool) (children : list Element) : list Element :=
  if cond then children else [].

Section Render.

Variable dagre_layout : Layout.DagreGraph → string → Layout.XY.

(** The [useMemo] of the laid-out mock diagram. No source of a mock edge
    names a member of [Object.prototype], so the layout returns for every
    layout function and the default is never used (lemma
    [diagram_returned]). *)
Definition diagram : list Layout.Node * list Layout.Edge :=
  default ([], [])
    (Layout.getLayoutedElements dagre_layout Layout.mockNodes Layout.mockEdges Layout.TB).

Definition render (props : Props) (w : World) : list Element :=
  let s := state w in
  let mode := currentInterviewMode props in
  let newSolution := match findQuery ["new_solution"] (queryCache w) with
                     | Some q => query_data q
                     | None => JUndefined
                     end in
  if (negb (isResetting s) && truthy newSolution)%bool then
    [ DebugView (debugProcessing s) (currentLanguage props) mode ]
  else
    (jsxAnd (solutionData s)
       [ ScreenshotQueue (debugProcessing s) (extraScreenshots s) ]
     ++ [ SolutionCommands
            (negb (truthy (problemStatementData s)) || negb (truthy (solutionData s)))
            (extraScreenshots s) (credits props) (currentLanguage props) mode ]
     ++ jsxWhen (negb (truthy (solutionData s)) && String.eqb mode "Coding")
          ([ ProblemStatementSection
               (optChain (problemStatementData s) "problem_statement")
               (negb (truthy (problemStatementData s))) ]
           ++ jsxAnd (problemStatementData s) [ GeneratingSolutions ])
     ++ jsxAnd (solutionData s)
          (jsxWhen (String.eqb mode "Coding")
             [ ThoughtsSection (thoughtsData s) (negb (truthy (thoughtsData s)));
               SolutionSection (solutionData s) (negb (truthy (solutionData s)))
                 (currentLanguage props);
               ComplexitySection (timeComplexityData s) (spaceComplexityData s)
                 (negb (truthy (timeComplexityData s))
                  || negb (truthy (spaceComplexityData s))) ])
     ++ jsxWhen (String.eqb mode "SystemDesign")
          [ TabBar TABS (activeSystemDesignSolutionTab s) ]
     ++ jsxWhen (String.eqb mode "SystemDesign"
                 && String.eqb (activeSystemDesignSolutionTab s) "Diagram")
          [ DiagramTab (fst diagram) (snd diagram) ]
     ++ jsxWhen (String.eqb mode "SystemDesign"
                 && String.eqb (activeSystemDesignSolutionTab s) "Description")
          [ SystemDesignDescriptionSection ]
     ++ jsxWhen (String.eqb mode "SystemDesign"
                 && String.eqb (activeSystemDesignSolutionTab s) "Requirements")
          [ RequirementsSection ]
     ++ jsxWhen (String.eqb mode "SystemDesign"
                 && String.eqb (activeSystemDesignSolutionTab s) "Database Schema")
          [ DatabaseSchema ]
     ++ jsxWhen (String.eqb mode "SystemDesign"
                 && String.eqb (activeSystemDesignSolutionTab s) "Tradeoff")
          [ TradeOffSession ])%list.

End Render.

(** The content of a tab, as opposed to the tab bar and the coding
    sections. *)
Definition isTabContent (e : Element) : bool :=
  match e with
  | DiagramTab _ _ | SystemDesignDescriptionSection | RequirementsSection
  | DatabaseSchema | TradeOffSession => true
  | _ => false
  end.

Definition isTabBar (e : Element) : bool :=
  match e with TabBar _ _ => true | _ => false end.

Definition isCodingSection (e : Element) : bool :=
  match e with
  | ProblemStatementSection _ _ | GeneratingSolutions | ThoughtsSection _ _
  | SolutionSection _ _ _ | ComplexitySection _ _ _ => true
  | _ => false
  end.

End View.

(* ===================================================================== *)
(** ** Statements about the layout, in terms of the input graph *)
(* ===================================================================== *)

Module LayoutSpec.
Import Layout.

Section WithDagre.

Variable dagre_layout : DagreGraph → string → XY.

(** The node [id] is one of the nodes handed to the function. *)
Definition laidOut (nodes : list Node) (id : string) : bool :=
  bool_decide (id ∈ map node_id nodes).

(** The centre the layout gave to [id], if [id] is a node of the input. *)
Definition centreOf (nodes : list Node) (edges : list Edge)
    (direction : LayoutDirection) (id : string) : option XY :=
  if laidOut nodes id
  then Some (dagre_layout (buildGraph nodes edges direction) id)
  else None.

(** The x-coordinate recorded for a target: that of its centre, [0] for an
    id that is not a node of the input. *)
Definition targetXOf (nodes : list Node) (edges : list Edge)
    (direction : LayoutDirection) (id : string) : Z :=
  match centreOf nodes edges direction id with
  | Some c => x c
  | None => 0
  end.

(** The targets of the edges that leave [s], in the order of the edges. *)
Definition fanoutOf (nodes : list Node) (edges : list Edge)
    (direction : LayoutDirection) (s : string) : list FanoutTarget :=
  map (λ e, {| targetId := target e;
               target_x := targetXOf nodes edges direction (target e) |})
      (filter (λ e, source e = s) edges).

(** The order the fan-out targets are sorted by. *)
Definition leX (a b : FanoutTarget) : Prop := target_x a ≤ target_x b.

(** The entries recorded for the source [s], given the centres in
    [nodeMap]. *)
Definition fanoutEntries (nodeMap : gmap string XY) (edges : list Edge)
    (s : string) : list FanoutTarget :=
  map (λ e, {| targetId := target e;
               target_x := match nodeMap !! target e with
                           | Some p => x p
                           | None => 0
                           end |})
      (filter (λ e, source e = s) edges).

(** The label transform of the [i]-th edge of a result. *)
Definition transformOf (out : list Node * list Edge) (i : nat) : option string :=
  e' ← snd out !! i;
  transform <$> labelStyle e'.

(** [e] is the only edge from its source to its target. *)
Definition onlyEdgeBetween (edges : list Edge) (e : Edge) : Prop :=
  filter (λ e', source e' = source e ∧ target e' = target e) edges = [e].

(** The offsets at a fan-out point, for the [i]-th edge [e] of a result
    [out]: with the targets of its source sorted by x, the edge whose
    target comes first is moved left, the edge whose target comes last is
    moved right, and the others are only lifted. *)
Definition fanoutOffsets (nodes : list Node) (edges : list Edge)
    (out : list Node * list Edge) (i : nat) (e : Edge) : Prop :=
  let sorted := sortByX (fanoutOf nodes edges TB (source e)) in
  (targetId <$> head sorted = Some (target e) →
     transformOf out i = Some "translate(-100px, -16px)")
  ∧ (targetId <$> head sorted ≠ Some (target e) →
     targetId <$> last sorted = Some (target e) →
     transformOf out i = Some "translate(100px, -16px)")
  ∧ (targetId <$> head sorted ≠ Some (target e) →
     targetId <$> last sorted ≠ Some (target e) →
     transformOf out i = Some "translate(0px, -20px)").

(** The offset these words give the edge [e], and the edge carrying it: a
    layout that returns such edges has the offsets above at every fan-out
    point, also where two edges share their target. *)
Definition offsetAsStated (nodes : list Node) (edges : list Edge) (e : Edge) : string :=
  let sorted := sortByX (fanoutOf nodes edges TB (source e)) in
  if decide (targetId <$> head sorted = Some (target e))
  then "translate(-100px, -16px)"
  else if decide (targetId <$> last sorted = Some (target e))
  then "translate(100px, -16px)"
  else "translate(0px, -20px)".

Definition edgeAsStated (nodes : list Node) (edges : list Edge) (e : Edge) : Edge :=
  {| edge_id := edge_id e;
     source := source e;
     target := target e;
     label := label e;
     markerEnd := markerEnd e;
     edge_style := edge_style e;
     labelStyle := Some {| fill := "#fef9c3";
                           fontWeight := 600;
                           transform := offsetAsStated nodes edges e;
                           fontSize := 14;
                           maxWidth := 50;
                           whiteSpace := "normal";
                           wordWrap := "break-word";
                           overflowWrap := "break-word";
                           width := "50px" |};
     labelBgStyle := labelBgStyle e;
     labelBgPadding := labelBgPadding e;
     labelBgBorderRadius := labelBgBorderRadius e;
     edge_other := edge_other e |}.

(** The offsets hold at every fan-out point of every graph the function
    lays out. *)
Definition fanoutOffsetsEverywhere (nodes : list Node) (edges : list Edge) : Prop :=
  ∀ (out : list Node * list Edge) (i : nat) (e : Edge),
    getLayoutedElements dagre_layout nodes edges TB = Some out →
    edges !! i = Some e →
    (1 < length (fanoutOf nodes edges TB (source e)))%nat →
    fanoutOffsets nodes edges out i e.

End WithDagre.

(** A graph with an edge to an id that is not a node. *)
Definition danglingNodes : list Node :=
  [ mkNode "1" "API Gateway" 0 0; mkNode "2" "Upload Service" 200 0 ].

Definition danglingEdges : list Edge :=
  [ mkEdge "e1-2" "1" "2" "Submit"; mkEdge "e1-0" "1" "0" "Audit" ].

(** The mock diagram with a second edge to the sandbox engine, the
    rightmost target of the Scan Orchestrator. *)
Definition doubledEdges : list Edge :=
  (mockEdges ++ [ mkEdge "e5-8b" "5" "8" "Dispatch sample to sandbox" ])%list.

(** A graph with a service called "constructor". *)
Definition memberNamedNodes : list Node :=
  [ mkNode "constructor" "Object Constructor Service" 0 0;
    mkNode "registry" "Service Registry" 200 0 ].

Definition memberNamedEdges : list Edge :=
  [ mkEdge "e-c-r" "constructor" "registry" "Register instance" ].

(** No edge leaves a node named like a member of [Object.prototype]. *)
Definition plainSources (edges : list Edge) : Prop :=
  Forall (λ e, source e ∉ objectPrototypeMembers) edges.

(** The layout of the mock diagram under the sample layout. *)
Definition laidOutMock : list Node * list Edge :=
  default ([], []) (getLayoutedElements sampleLayout mockNodes mockEdges TB).

End LayoutSpec.

(* ===================================================================== *)
(** ** Statements about the component, and worlds to run it in *)
(* ===================================================================== *)

Module ViewSpec.
Import View.

(** The data cached under exactly [key], as [getQueryData] reads it. *)
Definition cached (key : QueryKey) (w : World) : JsValue :=
  match findQuery key (queryCache w) with
  | Some q => query_data q
  | None => JUndefined
  end.

(** A handler run in [w] leaves the four solution fields, the query cache
    and the current view as they were. *)
Definition keepsSolutionCacheView (handler : M unit) (w : World) : Prop :=
  let w' := exec handler w in
  solutionData (state w') = solutionData (state w)
  ∧ thoughtsData (state w') = thoughtsData (state w)
  ∧ timeComplexityData (state w') = timeComplexityData (state w)
  ∧ spaceComplexityData (state w') = spaceComplexityData (state w)
  ∧ queryCache w' = queryCache w
  ∧ view w' = view w.

(** The field [name] of a cached entry: [null] when there is no entry, when
    the entry has no such field, or when the field holds [null] or
    [undefined]. *)
Definition fieldOrNull (entry : option Query) (name : string) : JsValue :=
  match entry with
  | None => JNull
  | Some q =>
      match query_data q with
      | JObj props =>
          match lookupProp name props with
          | JUndefined | JNull => JNull
          | v => v
          end
      | _ => JNull
      end
  end.

(** The same for the error handler, which also turns a falsy field (the
    empty string, zero, [false]) into [null]. *)
Definition truthyFieldOrNull (entry : option Query) (name : string) : JsValue :=
  if truthy (fieldOrNull entry name) then fieldOrNull entry name else JNull.

(** The four local solution fields are [null]. *)
Definition solutionFieldsNull (w : World) : Prop :=
  solutionData (state w) = JNull
  ∧ thoughtsData (state w) = JNull
  ∧ timeComplexityData (state w) = JNull
  ∧ spaceComplexityData (state w) = JNull.

(** The four local solution fields of [w'] are those of [w]. *)
Definition sameSolutionFields (w' w : World) : Prop :=
  solutionData (state w') = solutionData (state w)
  ∧ thoughtsData (state w') = thoughtsData (state w)
  ∧ timeComplexityData (state w') = timeComplexityData (state w)
  ∧ spaceComplexityData (state w') = spaceComplexityData (state w).

(** The component shows the debug view instead of its own content. *)
Definition showsDebug (w : World) : bool :=
  (negb (isResetting (state w)) && truthy (cached ["new_solution"] w))%bool.

(** The component as mounted by the parent, before any event. *)
Definition initialWorld : World :=
  {| state := initialState; queryCache := []; view := solutions;
     toasts := []; console := []; tasks := [] |}.

Definition sampleProblem : JsValue :=
  JObj [ ("problem_statement", JStr "Given an array of integers, return two indices") ].

Definition sampleSolution : JsValue :=
  JObj [ ("code", JStr "def two_sum(nums, target): return lookup(nums, target)");
         ("thoughts", JArr [ JStr "Use a hash map"; JStr "One pass is enough" ]);
         ("time_complexity", JStr "O(n)");
         ("space_complexity", JStr "Linear in the input") ].

(** A problem was extracted and solved. *)
Definition solvedWorld : World :=
  exec (onSolutionSuccess sampleSolution)
    (exec (onProblemExtracted sampleProblem) initialWorld).

(** The host sent the empty string as the problem statement. *)
Definition blankProblemWorld : World :=
  exec (onProblemExtracted (JStr "")) initialWorld.

(** Processing was started again on a solved problem. *)
Definition retryWorld : World := exec onSolutionStart solvedWorld.

(** A debugged solution arrived. *)
Definition debuggedWorld : World :=
  exec (onDebugSuccess sampleSolution) solvedWorld.

Definition codingProps : Props :=
  {| credits := 3; currentLanguage := "python"; currentInterviewMode := "Coding" |}.

Definition systemDesignProps : Props :=
  {| credits := 3; currentLanguage := "python";
     currentInterviewMode := "SystemDesign" |}.

End ViewSpec.


(* ===================================================================== *)
(** ** Further statements about the layout *)
(* ===================================================================== *)

Module LayoutMore.
Import Layout LayoutSpec.

(** The four offsets a label can get. *)
Definition labelOffsets : list string :=
  [ "translate(0px, -16px)"; "translate(-100px, -16px)";
    "translate(100px, -16px)"; "translate(0px, -20px)" ].

(** What the function hands to dagre for a graph: the options, one node of
    120 by 60 per input node, one edge of minimal length 1 per input edge,
    all in input order. *)
Definition dagreInput (nodes : list Node) (edges : list Edge)
    (direction : LayoutDirection) : DagreGraph :=
  {| graph_label := Some {| rankdir := direction; nodesep := 80; ranksep := 100;
                            edgesep := 40; marginx := 20; marginy := 20 |};
     graph_nodes := map (λ node, (node_id node,
                                  {| size_width := 120; size_height := 60 |})) nodes;
     graph_edges := map (λ edge, (source edge, target edge, 1)) edges |}.

(** Everything the function decides about the looks of an edge. *)
Definition edgeLooks (e : Edge)
    : option EdgeMarker * option EdgeStyle * option LabelStyle
      * option LabelBgStyle * option (Z * Z) * option Z :=
  (markerEnd e, edge_style e, labelStyle e, labelBgStyle e,
   labelBgPadding e, labelBgBorderRadius e).

(** The mock diagram with one more edge, to a component it does not have. *)
Definition mockEdgesDangling : list Edge :=
  (mockEdges ++ [ mkEdge "e11-12" "11" "12" "Export report" ])%list.

(** The mock diagram with the storage edge doubled. *)
Definition mockEdgesParallel : list Edge :=
  (mockEdges ++ [ mkEdge "e2-3b" "2" "3" "Store thumbnail" ])%list.

End LayoutMore.

(* ===================================================================== *)
(** ** Screenshots, content size and the tooltip *)
(* ===================================================================== *)

Module Screenshots.
Import View.

(** An element [{ path, preview }] of what the bridge returns. *)
Record Preview := { preview_path : string; preview_data : string }.

(** What [window.electronAPI.getScreenshots()] resolves to, by the cases
    the code tells apart: [null] or [undefined], an array of previews, or
    another object, whose [previews] property may be missing. *)
Inductive ScreenshotsResult :=
  | NoResult
  | PreviewArray (items : list Preview)
  | PreviewObject (previews : option (list Preview)).

(** How an awaited promise settles. *)
Inductive Settled (A : Type) :=
  | Fulfilled (a : A)
  | Rejected.
Arguments Fulfilled {A} a.
Arguments Rejected {A}.

(** [{ success, error }], the answer of [deleteScreenshot]. *)
Record DeleteResponse := { success : bool; delete_error : option string }.

(** The calls a handler made on the bridge. *)
Inductive BridgeCall :=
  | DeleteScreenshotCall (path : string)
  | GetScreenshotsCall.

(** [items.map((p) => ({ id: p.path, path: p.path, preview: p.preview,
    timestamp: Date.now() }))]; [clock i] is what [Date.now()] returns for
    the [i]-th element. *)
Definition toScreenshots (clock : nat → Z) (items : list Preview) : list Screenshot :=
  imap (λ i p, {| screenshot_id := preview_path p;
                  screenshot_path := preview_path p;
                  screenshot_preview := preview_data p;
                  screenshot_timestamp := clock i |}) items.

(** [Array.isArray(existing) ? existing : []] *)
Definition arrayOrEmpty (existing : ScreenshotsResult) : list Preview :=
  match existing with
  | PreviewArray items => items
  | NoResult | PreviewObject _ => []
  end.

(** [fetchScreenshots] of the effect that runs when [solutionData]
    changes, from the point where the promise settles. *)
Definition fetchScreenshots (clock : nat → Z)
    (existing : Settled ScreenshotsResult) : M unit :=
  match existing with
  | Fulfilled existing =>
      consoleWrite "Raw screenshot data:" ;;
      let screenshots := toScreenshots clock (arrayOrEmpty existing) in
      consoleWrite "Processed screenshots:" ;;
      setExtraScreenshots screenshots
  | Rejected =>
      consoleWrite "Error loading extra screenshots:" ;;
      setExtraScreenshots []
  end.

(** The [onScreenshotTaken] handler. *)
Definition onScreenshotTaken (clock : nat → Z)
    (existing : Settled ScreenshotsResult) : M unit :=
  match existing with
  | Fulfilled existing =>
      setExtraScreenshots (toScreenshots clock (arrayOrEmpty existing))
  | Rejected =>
      consoleWrite "Error loading extra screenshots:"
  end.

(** [fetchScreenshots] of the success handler, the work it left as
    [FetchScreenshots]: it reads [existing.previews], which throws for
    [null] and [undefined] and is [undefined] for an array. *)
Definition fetchScreenshotsAfterSuccess (clock : nat → Z)
    (existing : Settled ScreenshotsResult) : M unit :=
  match existing with
  | Fulfilled (PreviewObject (Some items)) =>
      setExtraScreenshots (toScreenshots clock items)
  | Fulfilled (PreviewObject None) | Fulfilled (PreviewArray _) =>
      setExtraScreenshots []
  | Fulfilled NoResult | Rejected =>
      consoleWrite "Error loading extra screenshots:" ;;
      setExtraScreenshots []
  end.

(** [extraScreenshots[index]] *)
Definition screenshotAt (index : Z) (screenshots : list Screenshot) : option Screenshot :=
  if index <? 0 then None else screenshots !! Z.to_nat index.

(** The [catch] block of [handleDeleteExtraScreenshot]. *)
Definition deleteFailed : M unit :=
  consoleWrite "Error deleting extra screenshot:" ;;
  showToast "Error" "Failed to delete the screenshot" "error".

(** [handleDeleteExtraScreenshot(index)], given how the two bridge calls it
    may make settle; it returns the calls it made. *)
Definition handleDeleteExtraScreenshot (clock : nat → Z) (index : Z)
    (response : Settled DeleteResponse) (existing : Settled ScreenshotsResult)
    : M (list BridgeCall) :=
  λ w,
    match screenshotAt index (extraScreenshots (state w)) with
    | None => (deleteFailed ;; mret []) w
    | Some screenshotToDelete =>
        let deleteCall := DeleteScreenshotCall (screenshot_path screenshotToDelete) in
        match response with
        | Rejected => (deleteFailed ;; mret [deleteCall]) w
        | Fulfilled response =>
            if success response then
              match existing with
              | Rejected => (deleteFailed ;; mret [deleteCall; GetScreenshotsCall]) w
              | Fulfilled existing =>
                  (setExtraScreenshots (toScreenshots clock (arrayOrEmpty existing)) ;;
                   mret [deleteCall; GetScreenshotsCall]) w
              end
            else
              (consoleWrite "Failed to delete extra screenshot:" ;;
               showToast "Error" "Failed to delete the screenshot" "error" ;;
               mret [deleteCall]) w
        end
    end.

(** *** Content size *)

Definition setIsTooltipVisible (v : bool) : M unit :=
  setState (λ s,
    {| debugProcessing := debugProcessing s;
       problemStatementData := problemStatementData s;
       activeSystemDesignSolutionTab := activeSystemDesignSolutionTab s;
       solutionData := solutionData s; thoughtsData := thoughtsData s;
       timeComplexityData := timeComplexityData s;
       spaceComplexityData := spaceComplexityData s;
       isTooltipVisible := v; tooltipHeight := tooltipHeight s;
       isResetting := isResetting s; extraScreenshots := extraScreenshots s |}).

Definition setTooltipHeight (v : Z) : M unit :=
  setState (λ s,
    {| debugProcessing := debugProcessing s;
       problemStatementData := problemStatementData s;
       activeSystemDesignSolutionTab := activeSystemDesignSolutionTab s;
       solutionData := solutionData s; thoughtsData := thoughtsData s;
       timeComplexityData := timeComplexityData s;
       spaceComplexityData := spaceComplexityData s;
       isTooltipVisible := isTooltipVisible s; tooltipHeight := v;
       isResetting := isResetting s; extraScreenshots := extraScreenshots s |}).

Definition handleTooltipVisibilityChange (visible : bool) (height : Z) : M unit :=
  setIsTooltipVisible visible ;;
  setTooltipHeight height.

(** [contentRef.current], when the content is mounted. *)
Record ContentElement := { scrollHeight : Z; scrollWidth : Z }.

(** The argument of [window.electronAPI.updateContentDimensions]. *)
Record Dimensions := { dimensions_width : Z; dimensions_height : Z }.

(** [updateDimensions]: the dimensions it reports, [None] when it reports
    nothing. *)
Definition updateDimensions (contentRef : option ContentElement)
    (props : Props) (s : State) : option Dimensions :=
  match contentRef with
  | None => None
  | Some current =>
      let contentHeight := scrollHeight current in
      let contentWidth := scrollWidth current in
      let contentHeight := if isTooltipVisible s
                           then contentHeight + tooltipHeight s
                           else contentHeight in
      Some {| dimensions_width :=
                if String.eqb (currentInterviewMode props) "SystemDesign"
                then 1400 else contentWidth;
              dimensions_height := contentHeight |}
  end.

End Screenshots.

(* ===================================================================== *)
(** ** The component as a machine driven by events *)
(* ===================================================================== *)

Module Machine.
Import View ViewSpec Screenshots.

(** What can happen to a mounted component: the bridge events, the cache
    effect on mount, the timer of the reset handler, a click on the
    [i]-th tab button, and the screenshot and tooltip callbacks. *)
Inductive Event :=
  | Mount
  | ResetView
  | ResetTimeout
  | SolutionStart
  | ProblemExtracted (data : JsValue)
  | SolutionError (error : string)
  | SolutionSuccess (data : JsValue)
  | DebugStart
  | DebugSuccess (data : JsValue)
  | DebugError
  | ProcessingNoScreenshots
  | TabClick (i : nat)
  | ScreenshotsFetched (clock : nat → Z) (existing : Settled ScreenshotsResult)
  | ScreenshotTaken (clock : nat → Z) (existing : Settled ScreenshotsResult)
  | ScreenshotsFetchedAfterSuccess (clock : nat → Z) (existing : Settled ScreenshotsResult)
  | DeleteExtraScreenshot (clock : nat → Z) (index : Z)
      (response : Settled DeleteResponse) (existing : Settled ScreenshotsResult)
  | TooltipVisibilityChange (visible : bool) (height : Z).

Definition handle (ev : Event) : M unit :=
  match ev with
  | Mount => onMount
  | ResetView => onResetView
  | ResetTimeout => onResetTimeout
  | SolutionStart => onSolutionStart
  | ProblemExtracted data => onProblemExtracted data
  | SolutionError error => onSolutionError error
  | SolutionSuccess data => onSolutionSuccess data
  | DebugStart => onDebugStart
  | DebugSuccess data => onDebugSuccess data
  | DebugError => onDebugError
  | ProcessingNoScreenshots => onProcessingNoScreenshots
  | TabClick i =>
      match TABS !! i with
      | Some tab => onTabClick tab
      | None => skip
      end
  | ScreenshotsFetched clock existing => fetchScreenshots clock existing
  | ScreenshotTaken clock existing => onScreenshotTaken clock existing
  | ScreenshotsFetchedAfterSuccess clock existing =>
      fetchScreenshotsAfterSuccess clock existing
  | DeleteExtraScreenshot clock index response existing =>
      handleDeleteExtraScreenshot clock index response existing ;; skip
  | TooltipVisibilityChange visible height =>
      handleTooltipVisibilityChange visible height
  end.

(** The world after a sequence of events. *)
Definition run (events : list Event) (w : World) : World :=
  foldl (λ w ev, exec (handle ev) w) w events.

(** Without a cached solution the four local solution fields are null. *)
Definition fieldsBacked (w : World) : Prop :=
  findQuery ["solution"] (queryCache w) = None → solutionFieldsNull w.

(** The active tab is one of the tabs of the tab bar. *)
Definition activeTabKnown (w : World) : Prop :=
  activeSystemDesignSolutionTab (state w) ∈ TABS.

(** The worlds that differ from [w] in the toasts shown only. *)
Definition sameButToasts (w' w : World) : Prop :=
  state w' = state w ∧ queryCache w' = queryCache w ∧ view w' = view w
  ∧ console w' = console w ∧ tasks w' = tasks w.

(** What [setQueryData(key, data)] does to one query of the cache. *)
Definition setData (key : QueryKey) (data : JsValue) (q : Query) : Query :=
  if sameKey key q then {| queryKey := key; query_data := data |} else q.

(** The four local solution fields, together. *)
Definition solutionFields (w : World) : JsValue * JsValue * JsValue * JsValue :=
  (solutionData (state w), thoughtsData (state w),
   timeComplexityData (state w), spaceComplexityData (state w)).

Definition isDebugView (e : Element) : bool :=
  match e with DebugView _ _ _ => true | _ => false end.

(** The object the success handler caches for [data]. *)
Definition solutionOf (data : JsValue) : JsValue :=
  JObj [ ("code", getProp data "code");
         ("thoughts", getProp data "thoughts");
         ("time_complexity", getProp data "time_complexity");
         ("space_complexity", getProp data "space_complexity") ].

(** A session: a problem, a solution, a debug round and a reset. *)
Definition sampleSession : list Event :=
  [ Mount; ProblemExtracted sampleProblem; SolutionStart;
    SolutionSuccess sampleSolution; TabClick 4; DebugStart;
    DebugSuccess sampleSolution; ResetView; ResetTimeout ].

Definition samplePreviews : list Preview :=
  [ {| preview_path := "/tmp/shot-1.png"; preview_data := "data:image/png;base64,AAAA" |};
    {| preview_path := "/tmp/shot-2.png"; preview_data := "data:image/png;base64,BBBB" |} ].

Definition sampleClock (i : nat) : Z := 1700000000000 + Z.of_nat i.

(** The solved world with two extra screenshots loaded. *)
Definition screenshotWorld : World :=
  exec (onScreenshotTaken sampleClock (Fulfilled (PreviewArray samplePreviews)))
    solvedWorld.

End Machine.

(* ===================================================================== *)
(** ** Theorems: graph layout *)
(* ===================================================================== *)

Section LayoutFacts.
Import Layout LayoutSpec.

Variable dagre_layout : DagreGraph → string → XY.

(** *** Sorting *)

Lemma insertByX_Permutation a l : Permutation (insertByX a l) (a :: l).
Proof.
  induction l as [|b l IH]; simpl; [done|].
  destruct (target_x a - target_x b <=? 0); [done|].
  rewrite IH. apply perm_swap.
Qed.

Lemma sortByX_Permutation l : Permutation (sortByX l) l.
Proof.
  induction l as [|a l IH]; simpl; [done|].
  rewrite insertByX_Permutation. by constructor.
Qed.

Lemma sortByX_length l : length (sortByX l) = length l.
Proof. apply Permutation_length, sortByX_Permutation. Qed.

Lemma insertByX_sorted a l :
  StronglySorted leX l → StronglySorted leX (insertByX a l).
Proof.
  induction 1 as [|b l Hs IH Hb]; simpl.
  - repeat constructor.
  - destruct (Z.leb_spec (target_x a - target_x b) 0) as [Hle|Hgt].
    + constructor; [by constructor|].
      constructor; [unfold leX; lia|].
      eapply Forall_impl; [exact Hb|]. unfold leX. intros c Hc. lia.
    + constructor; [done|].
      rewrite (insertByX_Permutation a l).
      constructor; [unfold leX; lia | done].
Qed.

Lemma sortByX_sorted l : StronglySorted leX (sortByX l).
Proof.
  induction l as [|a l IH]; simpl; [constructor|].
  by apply insertByX_sorted.
Qed.

(** The sort is stable: entries with the same x keep their order. *)
Lemma insertByX_stable v a l :
  StronglySorted leX l →
  filter (λ t, target_x t = v) (insertByX a l)
  = filter (λ t, target_x t = v) (a :: l).
Proof.
  induction 1 as [|b l Hs IH Hb]; simpl; [done|].
  destruct (Z.leb_spec (target_x a - target_x b) 0) as [Hle|Hgt]; [done|].
  rewrite (filter_cons _ b), (filter_cons _ a), (filter_cons _ b), IH, (filter_cons _ a).
  destruct (decide (target_x b = v)) as [Hbv|Hbv];
    destruct (decide (target_x a = v)) as [Hav|Hav]; try done; lia.
Qed.

Lemma sortByX_stable v l :
  filter (λ t, target_x t = v) (sortByX l) = filter (λ t, target_x t = v) l.
Proof.
  induction l as [|a l IH]; simpl; [done|].
  rewrite insertByX_stable by apply sortByX_sorted.
  by rewrite !filter_cons, IH.
Qed.

(** *** The two maps the function builds *)

Lemma layoutNodes_fst g direction nodeMap nodes :
  fst (layoutNodes dagre_layout g direction nodeMap nodes)
  = map (λ node, fst (layoutNode dagre_layout g direction ∅ node)) nodes.
Proof.
  revert nodeMap. induction nodes as [|node rest IH]; intros nodeMap; [done|].
  simpl. specialize (IH (<[node_id node := dagre_layout g (node_id node)]> nodeMap)).
  destruct (layoutNodes _ _ _ _ rest) as [rest' nm']. simpl in *. by rewrite IH.
Qed.

Lemma layoutNodes_snd g direction nodeMap nodes id :
  snd (layoutNodes dagre_layout g direction nodeMap nodes) !! id
  = if laidOut nodes id then Some (dagre_layout g id) else nodeMap !! id.
Proof.
  revert nodeMap. induction nodes as [|node rest IH]; intros nodeMap; [done|].
  simpl. specialize (IH (<[node_id node := dagre_layout g (node_id node)]> nodeMap)).
  destruct (layoutNodes _ _ _ _ rest) as [rest' nm']. simpl in *. rewrite IH.
  unfold laidOut. simpl.
  destruct (decide (id ∈ map node_id rest)) as [Hin|Hnin].
  - rewrite !bool_decide_eq_true_2; [done| |done]. by apply list_elem_of_further.
  - rewrite (bool_decide_eq_false_2 _ Hnin).
    destruct (decide (id = node_id node)) as [->|Hne].
    + rewrite bool_decide_eq_true_2 by apply list_elem_of_here.
      by rewrite lookup_insert_eq.
    + rewrite bool_decide_eq_false_2.
      * by rewrite lookup_insert_ne.
      * intros Hc. apply elem_of_cons in Hc as [?|?]; done.
Qed.

Lemma nodeMap_lookup nodes edges direction id :
  snd (layoutNodes dagre_layout (buildGraph nodes edges direction) direction ∅ nodes) !! id
  = centreOf dagre_layout nodes edges direction id.
Proof.
  rewrite layoutNodes_snd. unfold centreOf.
  destruct (laidOut nodes id); [done|]. apply lookup_empty.
Qed.

Lemma fanoutEntries_fanoutOf nodes edges direction s :
  fanoutEntries
    (snd (layoutNodes dagre_layout (buildGraph nodes edges direction) direction ∅ nodes))
    edges s
  = fanoutOf dagre_layout nodes edges direction s.
Proof.
  unfold fanoutEntries, fanoutOf, targetXOf. apply map_ext. intros e.
  by rewrite nodeMap_lookup.
Qed.

(** One edge whose source names no inherited member is recorded. *)
Lemma pushFanout_plain nodeMap acc e :
  source e ∉ objectPrototypeMembers →
  ∃ acc',
    pushFanout nodeMap acc e = Some acc'
    ∧ ∀ s, acc' !! s
           = if decide (source e = s)
             then Some (default [] (acc !! s) ++ fanoutEntries nodeMap [e] s)%list
             else acc !! s.
Proof.
  intros Hplain. unfold pushFanout, getProperty.
  destruct (acc !! source e) as [entries|] eqn:Hacc.
  - eexists. split; [done|]. intros s.
    destruct (decide (source e = s)) as [<-|Hne].
    + rewrite lookup_insert_eq, Hacc. unfold fanoutEntries.
      rewrite filter_cons_True by done. done.
    + by rewrite lookup_insert_ne.
  - rewrite bool_decide_eq_false_2 by done.
    eexists. split; [done|]. intros s.
    destruct (decide (source e = s)) as [<-|Hne].
    + rewrite lookup_insert_eq, Hacc. unfold fanoutEntries.
      rewrite filter_cons_True by done. done.
    + by rewrite !lookup_insert_ne.
Qed.

(** One edge whose source names an inherited member throws, unless an
    array is stored under that name, which never is. *)
Lemma pushFanout_member nodeMap acc e :
  source e ∈ objectPrototypeMembers →
  acc !! source e = None →
  pushFanout nodeMap acc e = None.
Proof.
  intros Hmember Hacc. unfold pushFanout, getProperty.
  by rewrite Hacc, bool_decide_eq_true_2.
Qed.

Lemma foldl_pushFanout_None nodeMap edges :
  foldl (λ acc edge, acc ≫= λ s2t, pushFanout nodeMap s2t edge) None edges = None.
Proof. by induction edges. Qed.

Lemma fanoutEntries_cons nodeMap e rest s :
  fanoutEntries nodeMap (e :: rest) s
  = (fanoutEntries nodeMap [e] s ++ fanoutEntries nodeMap rest s)%list.
Proof.
  unfold fanoutEntries. rewrite <- map_app. f_equal.
  rewrite !filter_cons. by destruct (decide (source e = s)).
Qed.

Lemma foldl_pushFanout_plain nodeMap edges acc :
  plainSources edges →
  ∃ acc',
    foldl (λ acc edge, acc ≫= λ s2t, pushFanout nodeMap s2t edge) (Some acc) edges
    = Some acc'
    ∧ ∀ s, acc' !! s
           = match fanoutEntries nodeMap edges s with
             | [] => acc !! s
             | entries => Some (default [] (acc !! s) ++ entries)%list
             end.
Proof.
  revert acc. induction edges as [|e rest IH]; intros acc Hplain.
  - by exists acc.
  - apply Forall_cons in Hplain as [He Hrest]. simpl.
    destruct (pushFanout_plain nodeMap acc e He) as (acc1 & -> & Hacc1).
    destruct (IH acc1 Hrest) as (acc' & -> & Hacc').
    exists acc'. split; [done|]. intros s.
    rewrite Hacc', Hacc1, (fanoutEntries_cons nodeMap e rest s).
    destruct (decide (source e = s)) as [Hs|Hs].
    + assert (∃ entry, fanoutEntries nodeMap [e] s = [entry]) as [entry ->].
      { unfold fanoutEntries. rewrite filter_cons_True by done. by eexists. }
      simpl. destruct (fanoutEntries nodeMap rest s) as [|t ts]; [done|].
      by rewrite <- app_assoc.
    + assert (fanoutEntries nodeMap [e] s = []) as ->.
      { unfold fanoutEntries. by rewrite filter_cons_False by done. }
      done.
Qed.

Lemma foldl_pushFanout_member nodeMap edges acc :
  (∀ s, s ∈ objectPrototypeMembers → acc !! s = None) →
  ¬ plainSources edges →
  foldl (λ acc edge, acc ≫= λ s2t, pushFanout nodeMap s2t edge) (Some acc) edges
  = None.
Proof.
  revert acc. induction edges as [|e rest IH]; intros acc Hacc Hnot.
  - exfalso. apply Hnot. constructor.
  - simpl. destruct (decide (source e ∈ objectPrototypeMembers)) as [Hm|Hp].
    + rewrite pushFanout_member by auto. apply foldl_pushFanout_None.
    + destruct (pushFanout_plain nodeMap acc e Hp) as (acc1 & -> & Hacc1).
      apply IH.
      * intros s Hs. rewrite Hacc1. rewrite decide_False; [by apply Hacc|].
        by intros <-.
      * intros Hrest. apply Hnot. by constructor.
Qed.

Lemma getLayoutedElements_eq nodes edges direction :
  getLayoutedElements dagre_layout nodes edges direction
  = (let g := buildGraph nodes edges direction in
     let nodeMap := snd (layoutNodes dagre_layout g direction ∅ nodes) in
     sourceToTargets ← buildFanout nodeMap edges;
     Some (map (λ node, fst (layoutNode dagre_layout g direction ∅ node)) nodes,
           map (layoutEdge direction nodeMap sourceToTargets) edges)).
Proof.
  unfold getLayoutedElements. cbv zeta.
  pose proof (layoutNodes_fst (buildGraph nodes edges direction) direction ∅ nodes)
    as Hfst.
  destruct (layoutNodes dagre_layout (buildGraph nodes edges direction) direction ∅ nodes)
    as [ns nm]. simpl in *. by rewrite Hfst.
Qed.

(** Once the second loop is through, an array is stored under the source of
    every edge: the lookup in [labelTransform] never meets an inherited
    member. *)
Lemma buildFanout_own_arrays nodeMap edges sourceToTargets e :
  buildFanout nodeMap edges = Some sourceToTargets →
  e ∈ edges →
  ∃ entries, getProperty sourceToTargets (source e) = OwnArray entries.
Proof.
  intros Hbuild Hin. unfold buildFanout in Hbuild.
  destruct (decide (plainSources edges)) as [Hplain|Hnot].
  - destruct (foldl_pushFanout_plain nodeMap edges ∅ Hplain) as (s2t & Hs2t & Hlookup).
    rewrite Hs2t in Hbuild. injection Hbuild as <-.
    unfold getProperty. rewrite Hlookup.
    destruct (fanoutEntries nodeMap edges (source e)) as [|t ts] eqn:Hf; [|by eexists].
    exfalso. unfold fanoutEntries in Hf. apply map_eq_nil in Hf.
    assert (Hmem : e ∈ filter (λ e0, source e0 = source e) edges)
      by (by apply list_elem_of_filter).
    rewrite Hf in Hmem. by apply not_elem_of_nil in Hmem.
  - rewrite foldl_pushFanout_member in Hbuild; [done| |done].
    intros s _. apply lookup_empty.
Qed.

(** The function returns exactly for the edge lists without a source that
    names an inherited member, and this is what it returns. *)
Lemma getLayoutedElements_inv nodes edges direction out :
  getLayoutedElements dagre_layout nodes edges direction = Some out →
  let g := buildGraph nodes edges direction in
  let nodeMap := snd (layoutNodes dagre_layout g direction ∅ nodes) in
  plainSources edges
  ∧ ∃ sourceToTargets,
      buildFanout nodeMap edges = Some sourceToTargets
      ∧ (∀ s, sourceToTargets !! s
              = match fanoutOf dagre_layout nodes edges direction s with
                | [] => None
                | entries => Some entries
                end)
      ∧ out = (map (λ node, fst (layoutNode dagre_layout g direction ∅ node)) nodes,
               map (layoutEdge direction nodeMap sourceToTargets) edges).
Proof.
  rewrite getLayoutedElements_eq. cbv zeta.
  pose proof (fanoutEntries_fanoutOf nodes edges direction) as Hentries.
  set (nm := snd (layoutNodes dagre_layout (buildGraph nodes edges direction)
                    direction ∅ nodes)) in *.
  destruct (decide (plainSources edges)) as [Hplain|Hnot].
  - unfold buildFanout.
    destruct (foldl_pushFanout_plain nm edges ∅ Hplain) as (s2t & -> & Hs2t).
    simpl. intros [= <-]. split; [done|]. exists s2t. split; [done|]. split; [|done].
    intros s. rewrite Hs2t, <- Hentries, lookup_empty. done.
  - unfold buildFanout. rewrite foldl_pushFanout_member; [done| |done].
    intros s _. apply lookup_empty.
Qed.

Lemma getLayoutedElements_returns nodes edges direction :
  plainSources edges →
  is_Some (getLayoutedElements dagre_layout nodes edges direction).
Proof.
  intros Hplain. rewrite getLayoutedElements_eq. cbv zeta. unfold buildFanout.
  destruct (foldl_pushFanout_plain
              (snd (layoutNodes dagre_layout (buildGraph nodes edges direction)
                      direction ∅ nodes)) edges ∅ Hplain) as (s2t & -> & _).
  done.
Qed.


Lemma fanout_lookup_edge nodes edges direction
    (sourceToTargets : gmap string (list FanoutTarget)) e :
  (∀ s, sourceToTargets !! s
        = match fanoutOf dagre_layout nodes edges direction s with
          | [] => None
          | entries => Some entries
          end) →
  e ∈ edges →
  sourceToTargets !! source e
  = Some (fanoutOf dagre_layout nodes edges direction (source e)).
Proof.
  intros Hs2t Hin. rewrite Hs2t.
  destruct (fanoutOf _ _ _ _ _) as [|t ts] eqn:Hf; [|done].
  exfalso. unfold fanoutOf in Hf. apply map_eq_nil in Hf.
  assert (Hmem : e ∈ filter (λ e0, source e0 = source e) edges)
    by (by apply list_elem_of_filter).
  rewrite Hf in Hmem. by apply not_elem_of_nil in Hmem.
Qed.

Lemma target_in_fanout nodes edges direction e :
  e ∈ edges →
  target e ∈ map targetId (fanoutOf dagre_layout nodes edges direction (source e)).
Proof.
  intros Hin. unfold fanoutOf. rewrite map_map. simpl.
  apply list_elem_of_In, in_map_iff. exists e. split; [done|].
  apply list_elem_of_In, list_elem_of_filter. done.
Qed.

(** *** What [findIndex] returns on a list that holds the id *)

Lemma findIndex_spec id sorted :
  id ∈ map targetId sorted →
  ∃ (j : nat) (t : FanoutTarget),
    findIndex id sorted = Z.of_nat j
    ∧ sorted !! j = Some t ∧ targetId t = id
    ∧ ∀ (k : nat) (t' : FanoutTarget), sorted !! k = Some t' → (k < j)%nat → targetId t' ≠ id.
Proof.
  intros Hin. unfold findIndex.
  destruct (list_find (λ t, targetId t = id) sorted) as [[j t]|] eqn:Hfind.
  - apply list_find_Some in Hfind as (Hj & Ht & Hbefore).
    exists j, t. naive_solver.
  - exfalso. apply list_find_None in Hfind.
    apply list_elem_of_In, in_map_iff in Hin as (t & Ht & Hin).
    apply list_elem_of_In in Hin.
    rewrite Forall_forall in Hfind. by apply (Hfind t).
Qed.

(** *** The label transform of an edge *)

(** The transform of the [i]-th returned edge is the one computed from the
    centres of the nodes and the fan-out of its source. *)
Lemma transformOf_eq nodes edges direction out i e :
  getLayoutedElements dagre_layout nodes edges direction = Some out →
  edges !! i = Some e →
  ∃ sourceToTargets : gmap string (list FanoutTarget),
    sourceToTargets !! source e
    = Some (fanoutOf dagre_layout nodes edges direction (source e))
    ∧ transformOf out i
      = Some (labelTransform direction
                (snd (layoutNodes dagre_layout (buildGraph nodes edges direction)
                        direction ∅ nodes))
                sourceToTargets e).
Proof.
  intros Hout Hi.
  apply getLayoutedElements_inv in Hout as (_ & s2t & _ & Hs2t & ->).
  exists s2t. split.
  - apply fanout_lookup_edge; [done|]. by eapply list_elem_of_lookup_2.
  - unfold transformOf. simpl. by rewrite list_lookup_fmap, Hi.
Qed.

Lemma labelTransform_fanout nodes edges
    (sourceToTargets : gmap string (list FanoutTarget)) e :
  sourceToTargets !! source e = Some (fanoutOf dagre_layout nodes edges TB (source e)) →
  laidOut nodes (source e) = true →
  laidOut nodes (target e) = true →
  (1 < length (fanoutOf dagre_layout nodes edges TB (source e)))%nat →
  let nodeMap := snd (layoutNodes dagre_layout (buildGraph nodes edges TB) TB ∅ nodes) in
  let sorted := sortByX (fanoutOf dagre_layout nodes edges TB (source e)) in
  let index := findIndex (target e) sorted in
  labelTransform TB nodeMap sourceToTargets e
  = if index =? 0 then "translate(-100px, -16px)"
    else if index =? Z.of_nat (length sorted) - 1 then "translate(100px, -16px)"
    else "translate(0px, -20px)".
Proof.
  intros Hfan Hs Ht Hlen. simpl. unfold labelTransform.
  rewrite !nodeMap_lookup. unfold centreOf. rewrite Hs, Ht, Hfan.
  destruct (Z.ltb_spec 1 (Z.of_nat (length (fanoutOf dagre_layout nodes edges TB (source e)))));
    [done | lia].
Qed.

Lemma filter_two_occurrences {A} (P : A → Prop) `{∀ x, Decision (P x)}
    (l : list A) a b ta tb :
  l !! a = Some ta → l !! b = Some tb → (a < b)%nat → P ta → P tb →
  (2 ≤ length (filter P l))%nat.
Proof.
  intros Ha Hb Hab Pa Pb.
  rewrite <- (take_drop_middle l a ta Ha).
  rewrite filter_app, filter_cons_True by done.
  rewrite length_app. simpl.
  assert (Hin : tb ∈ filter P (drop (S a) l)).
  { apply list_elem_of_filter. split; [done|].
    apply list_elem_of_lookup. exists (b - S a)%nat.
    rewrite lookup_drop. by replace (S a + (b - S a))%nat with b by lia. }
  destruct (filter P (drop (S a) l)) as [|y ys]; [by apply not_elem_of_nil in Hin|].
  simpl. lia.
Qed.

Lemma filter_fanout_target (xs : string → Z) (s tgt : string) (edges : list Edge) :
  filter (λ t', targetId t' = tgt)
    (map (λ e0, {| targetId := target e0; target_x := xs (target e0) |})
       (filter (λ e0, source e0 = s) edges))
  = map (λ e0, {| targetId := target e0; target_x := xs (target e0) |})
      (filter (λ e', source e' = s ∧ target e' = tgt) edges).
Proof.
  induction edges as [|e0 rest IH]; [done|].
  rewrite !filter_cons.
  destruct (decide (source e0 = s)) as [Hs0|Hs0].
  - simpl. rewrite filter_cons. simpl.
    destruct (decide (target e0 = tgt)) as [Ht0|Ht0].
    + rewrite decide_True by done. simpl. by rewrite IH.
    + rewrite decide_False by tauto. done.
  - rewrite decide_False by tauto. done.
Qed.

(** An edge that is the only one between its ends has its target once in
    the sorted fan-out of its source. *)
Lemma onlyEdgeBetween_once nodes edges e :
  onlyEdgeBetween edges e →
  length (filter (λ t, targetId t = target e)
            (sortByX (fanoutOf dagre_layout nodes edges TB (source e)))) = 1%nat.
Proof.
  intros Honly. rewrite sortByX_Permutation. unfold fanoutOf.
  rewrite (filter_fanout_target (targetXOf dagre_layout nodes edges TB)).
  unfold onlyEdgeBetween in Honly. by rewrite length_map, Honly.
Qed.

(** The offsets of [fanoutOffsets] can be had on every graph: edges that
    carry [offsetAsStated] have them, whatever nodes come with them. *)
Lemma fanoutOffsets_can_be_met nodes edges layoutedNodes i e :
  edges !! i = Some e →
  fanoutOffsets dagre_layout nodes edges
    (layoutedNodes, map (edgeAsStated dagre_layout nodes edges) edges) i e.
Proof.
  intros Hi. unfold fanoutOffsets, transformOf. cbn [snd].
  rewrite list_lookup_fmap, Hi. simpl. unfold offsetAsStated.
  destruct (decide (targetId <$> head (sortByX (fanoutOf dagre_layout nodes edges TB
                                                  (source e)))
                    = Some (target e))) as [Hhead|Hhead];
    [by repeat split|].
  destruct (decide (targetId <$> last (sortByX (fanoutOf dagre_layout nodes edges TB
                                                  (source e)))
                    = Some (target e))) as [Hlast|Hlast];
    by repeat split.
Qed.

(** C1, as amended. For direction 'TB': when the function returns, an
    edge's source has more than one outgoing edge and both ends of the edge
    are nodes of the input, then with the source's targets sorted by their
    x-coordinate the edge whose target comes first gets
    'translate(-100px, -16px)'; the edge whose target comes last, if it is
    the only edge between its two nodes, gets 'translate(100px, -16px)';
    and every edge in between gets 'translate(0px, -20px)'. *)
Theorem fanout_label_offsets nodes edges out i e :
  getLayoutedElements dagre_layout nodes edges TB = Some out →
  edges !! i = Some e →
  laidOut nodes (source e) = true →
  laidOut nodes (target e) = true →
  (1 < length (fanoutOf dagre_layout nodes edges TB (source e)))%nat →
  let sorted := sortByX (fanoutOf dagre_layout nodes edges TB (source e)) in
  (targetId <$> head sorted = Some (target e) →
     transformOf out i = Some "translate(-100px, -16px)")
  ∧ (targetId <$> last sorted = Some (target e) →
     onlyEdgeBetween edges e →
     transformOf out i = Some "translate(100px, -16px)")
  ∧ (targetId <$> head sorted ≠ Some (target e) →
     targetId <$> last sorted ≠ Some (target e) →
     transformOf out i = Some "translate(0px, -20px)").
Proof.
  intros Hout Hi Hs Ht Hlen.
  assert (Hin : e ∈ edges) by (by eapply list_elem_of_lookup_2).
  destruct (transformOf_eq _ _ _ _ _ _ Hout Hi) as (s2t & Hfan & ->).
  rewrite labelTransform_fanout by done. simpl.
  set (sorted := sortByX (fanoutOf dagre_layout nodes edges TB (source e))).
  assert (Hperm : Permutation (map targetId sorted)
                    (map targetId (fanoutOf dagre_layout nodes edges TB (source e))))
    by apply Permutation_map, sortByX_Permutation.
  assert (Hlen' : (1 < length sorted)%nat)
    by (unfold sorted; by rewrite sortByX_length).
  destruct (findIndex_spec (target e) sorted) as (j & t & Hidx & Hj & Htj & Hfirst).
  { rewrite Hperm. by apply target_in_fanout. }
  rewrite Hidx.
  assert (Hjlt : (j < length sorted)%nat) by (by eapply lookup_lt_Some).
  split; [|split].
  - (* the target is that of the first entry *)
    intros Hhead. rewrite head_lookup in Hhead.
    destruct (sorted !! 0%nat) as [t0|] eqn:H0; [|done]. simpl in Hhead.
    destruct j as [|j']; [done|].
    exfalso. apply (Hfirst 0%nat t0 H0); [lia | congruence].
  - (* the target is that of the last entry, and of that entry only *)
    intros Hlast Honly. rewrite last_lookup in Hlast.
    destruct (sorted !! pred (length sorted)) as [tl|] eqn:Hl; [|done].
    simpl in Hlast.
    assert (j = pred (length sorted)) as ->.
    { destruct (decide (j = pred (length sorted))) as [|Hne]; [done|]. exfalso.
      pose proof (onlyEdgeBetween_once nodes edges e Honly) as Honce.
      fold sorted in Honce.
      pose proof (filter_two_occurrences (λ t', targetId t' = target e) sorted
                    j (pred (length sorted)) t tl Hj Hl) as Htwo.
      assert (targetId tl = target e) by congruence.
      assert (j < pred (length sorted))%nat by lia.
      specialize (Htwo ltac:(done) ltac:(done) ltac:(done)). lia. }
    destruct (Z.eqb_spec (Z.of_nat (pred (length sorted))) 0); [lia|].
    destruct (Z.eqb_spec (Z.of_nat (pred (length sorted)))
                (Z.of_nat (length sorted) - 1)); [done | lia].
  - (* the target is that of neither *)
    intros Hhead Hlast. rewrite head_lookup in Hhead. rewrite last_lookup in Hlast.
    destruct (Z.eqb_spec (Z.of_nat j) 0) as [H0|H0].
    { exfalso. apply Hhead. replace j with 0%nat in Hj by lia.
      rewrite Hj. simpl. by rewrite Htj. }
    destruct (Z.eqb_spec (Z.of_nat j) (Z.of_nat (length sorted) - 1)) as [H1|H1]; [|done].
    exfalso. apply Hlast. replace (pred (length sorted)) with j by lia.
    rewrite Hj. simpl. by rewrite Htj.
Qed.

(** *** Where the nodes are put *)

(** C9. The function returns whenever no edge source names a member of
    Object.prototype, and every node it returns is positioned at the centre
    computed by dagre minus half the fixed node size, that is at
    (x - 60, y - 30), with handles that depend on the direction only: source
    on the right and target on the left for 'LR' and 'RL', source at the
    bottom and target at the top otherwise. *)
Theorem layouted_node_position_and_handles nodes edges direction :
  (plainSources edges →
     is_Some (getLayoutedElements dagre_layout nodes edges direction))
  ∧ ∀ out,
      getLayoutedElements dagre_layout nodes edges direction = Some out →
      Forall2 (λ node node',
           let c := dagre_layout (buildGraph nodes edges direction) (node_id node) in
           position node' = {| x := x c - 60; y := y c - 30 |}
           ∧ sourcePosition node'
             = Some (match direction with LR | RL => Right | TB | BT => Bottom end)
           ∧ targetPosition node'
             = Some (match direction with LR | RL => Left | TB | BT => Top end))
        nodes (fst out).
Proof.
  split; [apply getLayoutedElements_returns|].
  intros out Hout. apply getLayoutedElements_inv in Hout as (_ & s2t & _ & _ & ->). simpl.
  apply Forall2_fmap_r, Forall_Forall2_diag, Forall_forall.
  intros node _. simpl. by destruct direction.
Qed.

End LayoutFacts.

Import Layout LayoutSpec.

(** No edge of the mock diagram leaves a node named like an inherited
    member: the function returns on it, whatever the layout, and the
    diagram the component shows is what it returns. *)
Lemma plainSources_mockEdges : plainSources mockEdges.
Proof.
  match goal with |- ?G => apply (bool_decide_eq_true_1 G) end.
  vm_compute. reflexivity.
Qed.

Lemma diagram_returned dagre_layout :
  getLayoutedElements dagre_layout mockNodes mockEdges TB
  = Some (View.diagram dagre_layout).
Proof.
  destruct (getLayoutedElements_returns dagre_layout mockNodes mockEdges TB
              plainSources_mockEdges) as [out Hout].
  unfold View.diagram. by rewrite Hout.
Qed.

(** The three edges that leave the Scan Orchestrator of the mock diagram:
    to the engine on the left, the engine in the middle and the engine on
    the right. *)
Lemma fanout_label_offsets_witness :
  transformOf laidOutMock 4 = Some "translate(-100px, -16px)"
  ∧ transformOf laidOutMock 5 = Some "translate(0px, -20px)"
  ∧ transformOf laidOutMock 6 = Some "translate(100px, -16px)".
Proof.
  split; [|split].
  - destruct (fanout_label_offsets sampleLayout mockNodes mockEdges laidOutMock 4
                (mkEdge "e5-6" "5" "6" "Dispatch to AV engine"))
      as (Hleft & _ & _).
    + vm_compute. reflexivity.
    + reflexivity.
    + vm_compute. reflexivity.
    + vm_compute. reflexivity.
    + vm_compute. lia.
    + apply Hleft. vm_compute. reflexivity.
  - destruct (fanout_label_offsets sampleLayout mockNodes mockEdges laidOutMock 5
                (mkEdge "e5-7" "5" "7" "Dispatch to static engine"))
      as (_ & _ & Hmiddle).
    + vm_compute. reflexivity.
    + reflexivity.
    + vm_compute. reflexivity.
    + vm_compute. reflexivity.
    + vm_compute. lia.
    + apply Hmiddle; vm_compute; discriminate.
  - destruct (fanout_label_offsets sampleLayout mockNodes mockEdges laidOutMock 6
                (mkEdge "e5-8" "5" "8" "Dispatch to sandbox engine"))
      as (_ & Hright & _).
    + vm_compute. reflexivity.
    + reflexivity.
    + vm_compute. reflexivity.
    + vm_compute. reflexivity.
    + vm_compute. lia.
    + apply Hright; vm_compute; reflexivity.
Defined.

(** The nodes of the mock diagram under the sample layout. *)
Lemma layouted_node_position_and_handles_witness :
  is_Some (getLayoutedElements sampleLayout mockNodes mockEdges TB)
  ∧ Forall2 (λ node node',
         let c := sampleLayout (buildGraph mockNodes mockEdges TB) (node_id node) in
         position node' = {| x := x c - 60; y := y c - 30 |}
         ∧ sourcePosition node' = Some Bottom
         ∧ targetPosition node' = Some Top)
      mockNodes (fst laidOutMock).
Proof.
  destruct (layouted_node_position_and_handles sampleLayout mockNodes mockEdges TB)
    as (Hreturns & Hnodes).
  split.
  - apply Hreturns.
    match goal with |- ?G => apply (bool_decide_eq_true_1 G) end.
    vm_compute. reflexivity.
  - apply Hnodes. vm_compute. reflexivity.
Defined.

(** C1, as stated, fails on two graphs. An edge whose target is not a node
    keeps the default offset although its target sorts first. Of two edges
    to the rightmost target none is moved right. *)
Lemma fanout_label_offsets_counterexample :
  ¬ fanoutOffsetsEverywhere sampleLayout danglingNodes danglingEdges
  ∧ ¬ fanoutOffsetsEverywhere sampleLayout mockNodes doubledEdges.
Proof.
  split; intros H.
  - destruct (H (default ([], [])
                   (getLayoutedElements sampleLayout danglingNodes danglingEdges TB))
                1%nat (mkEdge "e1-0" "1" "0" "Audit")) as (Hfirst & _);
      [vm_compute; reflexivity | reflexivity | vm_compute; lia |].
    specialize (Hfirst eq_refl). vm_compute in Hfirst. discriminate.
  - destruct (H (default ([], [])
                   (getLayoutedElements sampleLayout mockNodes doubledEdges TB))
                6%nat (mkEdge "e5-8" "5" "8" "Dispatch to sandbox engine"))
      as (_ & Hlast & _);
      [vm_compute; reflexivity | reflexivity | vm_compute; lia |].
    assert (Hright : transformOf
              (default ([], []) (getLayoutedElements sampleLayout mockNodes doubledEdges TB))
              6 = Some "translate(100px, -16px)").
    { apply Hlast; vm_compute; [discriminate|reflexivity]. }
    vm_compute in Hright. discriminate.
Qed.


(* ===================================================================== *)
(** ** Theorems: complexity formatting *)
(* ===================================================================== *)

Section ComplexityFacts.
Import Complexity.

Lemma hasClose_app s1 s2 :
  hasClose (s1 ++ s2) = (hasClose s1 || hasClose s2)%bool.
Proof.
  induction s1 as [|c s1 IH]; simpl; [done|].
  by rewrite IH, orb_assoc.
Qed.

Lemma hasClose_split s :
  hasClose s = true →
  ∃ mid post : string, s = mid ++ ")" ++ post ∧ hasClose mid = false.
Proof.
  induction s as [|c s IH]; simpl; [done|].
  destruct (isClose c) eqn:Hc; simpl.
  - intros _. exists "", s. split; [|done].
    unfold isClose in Hc. apply Ascii.eqb_eq in Hc. by subst.
  - intros Hs. destruct (IH Hs) as (mid & post & -> & Hmid).
    exists (String c mid), post. split; [done|]. simpl. by rewrite Hc.
Qed.

Lemma isO_spec o : isO o = true ↔ o = "O"%char ∨ o = "o"%char.
Proof.
  unfold isO. rewrite orb_true_iff, !Ascii.eqb_eq. done.
Qed.

(** The matcher decides the regular expression. *)
Lemma matchBigO_spec s : matchBigO s = true ↔ containsBigO s.
Proof.
  split.
  - induction s as [|a s IH]; simpl; [done|].
    intros H. apply orb_true_iff in H as [Hhere|Hlater].
    + destruct s as [|p [|c rest]]; try done.
      apply andb_true_iff in Hhere as [Hhere Hrest].
      apply andb_true_iff in Hhere as [Hhere Hc].
      apply andb_true_iff in Hhere as [Ho Hp].
      apply Ascii.eqb_eq in Hp as ->.
      apply negb_true_iff in Hc.
      destruct (hasClose_split rest Hrest) as (mid & post & -> & Hmid).
      exists "", a, (String c mid), post.
      repeat split; [by apply isO_spec | done | simpl; by rewrite Hc].
    + destruct (IH Hlater) as (pre & o & mid & post & -> & Ho & Hne & Hmid).
      by exists (String a pre), o, mid, post.
  - intros (pre & o & mid & post & -> & Ho & Hne & Hmid).
    induction pre as [|a pre IH]; simpl.
    + destruct mid as [|c mid]; [done|]. simpl in *.
      apply orb_false_iff in Hmid as [Hc Hmid].
      apply isO_spec in Ho. rewrite Ho, Hc. simpl.
      rewrite hasClose_app. simpl. by rewrite orb_true_r.
    + simpl in IH. rewrite IH. apply orb_true_r.
Qed.

(** C8, as amended. [formatComplexity] is total. For [null] and for the
    empty string it returns "O(n) - Linear time/space complexity"; a string
    that contains a Big-O pattern O(...) is returned unchanged; every other
    non-empty string [s] becomes "O(n) - " followed by [s]; and formatting
    a formatted value changes nothing. *)
Theorem formatComplexity_cases_idempotent :
  formatComplexity None = "O(n) - Linear time/space complexity"
  ∧ formatComplexity (Some "") = "O(n) - Linear time/space complexity"
  ∧ (∀ s : string, containsBigO s → formatComplexity (Some s) = s)
  ∧ (∀ s : string, s ≠ "" → ¬ containsBigO s →
       formatComplexity (Some s) = "O(n) - " ++ s)
  ∧ (∀ x : option string,
       formatComplexity (Some (formatComplexity x)) = formatComplexity x).
Proof.
  split; [done|]. split; [done|]. split; [|split].
  - intros s Hs. pose proof Hs as Hm. apply matchBigO_spec in Hm.
    unfold formatComplexity. destruct s as [|c s]; [done|]. by rewrite Hm.
  - intros s Hne Hs. unfold formatComplexity. destruct s as [|c s]; [done|].
    destruct (matchBigO (String c s)) eqn:Hm; [|done].
    exfalso. by apply Hs, matchBigO_spec.
  - intros [s|]; [|done]. unfold formatComplexity at 2.
    destruct s as [|c s]; [done|].
    destruct (matchBigO (String c s)) eqn:Hm.
    + unfold formatComplexity. by rewrite Hm.
    + unfold formatComplexity. simpl in *. by rewrite Hm.
Qed.

End ComplexityFacts.

(** C8, as stated, fails for the empty string: it holds no Big-O pattern,
    yet it is not prefixed but replaced by the default text. *)
Lemma formatComplexity_counterexample :
  ¬ Complexity.containsBigO ""
  ∧ Complexity.formatComplexity (Some "") ≠ "O(n) - " ++ "".
Proof.
  split; [|done].
  intros (pre & o & mid & post & H & _). by destruct pre.
Qed.

(* ===================================================================== *)
(** ** Theorems: the component *)
(* ===================================================================== *)

Section ViewFacts.
Import View ViewSpec.

Variable dagre_layout : Layout.DagreGraph → string → Layout.XY.

Lemma exec_bind {A B} (m : M A) (f : A → M B) (w : World) :
  exec (m ≫= f) w = exec (f (fst (m w))) (snd (m w)).
Proof. unfold exec, mbind, M_bind. by destruct (m w). Qed.

Lemma getQueryData_fst key w : fst (getQueryData key w) = cached key w.
Proof. done. Qed.

Lemma getQueryData_snd key w : snd (getQueryData key w) = w.
Proof. done. Qed.

(** *** The subscription changes local fields only *)

Lemma subscriber_world event w :
  let w' := exec (subscriber event) w in
  queryCache w' = queryCache w
  ∧ view w' = view w
  ∧ toasts w' = toasts w
  ∧ console w' = console w
  ∧ tasks w' = tasks w
  ∧ isResetting (state w') = isResetting (state w)
  ∧ extraScreenshots (state w') = extraScreenshots (state w)
  ∧ debugProcessing (state w') = debugProcessing (state w)
  ∧ activeSystemDesignSolutionTab (state w') = activeSystemDesignSolutionTab (state w).
Proof.
  unfold subscriber.
  destruct (keyHeadIs event "problem_statement"), (keyHeadIs event "solution");
    by cbn.
Qed.

Lemma subscriber_problemStatement event w :
  keyHeadIs event "problem_statement" = false →
  problemStatementData (state (exec (subscriber event) w))
  = problemStatementData (state w).
Proof.
  intros Hk. unfold subscriber. rewrite Hk.
  by destruct (keyHeadIs event "solution").
Qed.

(** *** Removing queries *)

Lemma filter_ext_elem {A} (P Q : A → Prop)
    `{∀ x, Decision (P x)} `{∀ x, Decision (Q x)} (l : list A) :
  (∀ x, x ∈ l → P x ↔ Q x) → filter P l = filter Q l.
Proof.
  induction l as [|a l IH]; intros Hext; [done|].
  rewrite !filter_cons, IH.
  - destruct (decide (P a)) as [Hp|Hp], (decide (Q a)) as [Hq|Hq]; try done;
      exfalso; apply (Hext a (list_elem_of_here a l)) in Hp || apply Hp;
      try done; by apply (Hext a (list_elem_of_here a l)).
  - intros x Hx. apply Hext. by apply list_elem_of_further.
Qed.

Lemma find_filter_keep (key : QueryKey) (P : Query → Prop)
    `{∀ q, Decision (P q)} (cache : list Query) :
  (∀ q, queryKey q = key → P q) →
  findQuery key (filter P cache) = findQuery key cache.
Proof.
  intros Hkeep. unfold findQuery.
  induction cache as [|q cache IH]; [done|].
  rewrite filter_cons. simpl. unfold sameKey at 2.
  destruct (decide (P q)) as [Hp|Hp]; simpl.
  - unfold sameKey at 1. by rewrite IH.
  - rewrite bool_decide_eq_false_2; [done|]. intros Hk. by apply Hp, Hkeep.
Qed.

Lemma find_filter_drop (key : QueryKey) (P : Query → Prop)
    `{∀ q, Decision (P q)} (cache : list Query) :
  (∀ q, q ∈ cache → queryKey q = key → ¬ P q) →
  findQuery key (filter P cache) = None.
Proof.
  unfold findQuery.
  induction cache as [|q cache IH]; intros Hdrop; [done|].
  rewrite filter_cons.
  destruct (decide (P q)) as [Hp|Hp]; simpl.
  - unfold sameKey at 1. rewrite bool_decide_eq_false_2.
    + apply IH. intros q' Hq'. apply Hdrop. by apply list_elem_of_further.
    + intros Hk. by apply (Hdrop q (list_elem_of_here q cache)).
  - apply IH. intros q' Hq'. apply Hdrop. by apply list_elem_of_further.
Qed.

Lemma partialMatchKey_refl key : partialMatchKey key key = true.
Proof.
  induction key as [|k key IH]; [done|]. simpl.
  by rewrite String.eqb_refl, IH.
Qed.

Lemma partialMatchKey_head key name :
  partialMatchKey key [name] = true → ∃ rest, key = name :: rest.
Proof.
  destruct key as [|k rest]; simpl; [done|].
  intros Hm. apply andb_true_iff in Hm as [Hk _].
  apply String.eqb_eq in Hk as ->. by exists rest.
Qed.

Lemma removeEach_cons q rest w :
  exec (removeEach subscriber (q :: rest)) w
  = exec (removeEach subscriber rest)
      (exec (notify subscriber removed q)
         (exec (putCache (filter (λ q', sameKey (queryKey q) q' = false)
                            (queryCache w))) w)).
Proof.
  unfold exec. simpl. unfold mbind, M_bind. simpl.
  by destruct (notify subscriber removed q _) as [[] w'].
Qed.

Lemma removeEach_cache found w :
  queryCache (exec (removeEach subscriber found) w)
  = filter (λ q', queryKey q' ∉ map queryKey found) (queryCache w).
Proof.
  revert w. induction found as [|q rest IH]; intros w.
  - change (exec (removeEach subscriber []) w) with w.
    generalize (queryCache w). intros l.
    induction l as [|a l IHl]; [done|].
    rewrite filter_cons_True by apply not_elem_of_nil. by rewrite <- IHl.
  - rewrite removeEach_cons, IH.
    destruct (subscriber_world (Some {| event_type := removed; event_query := q |})
                (exec (putCache (filter (λ q', sameKey (queryKey q) q' = false)
                                   (queryCache w))) w)) as (Hc & _).
    unfold notify. rewrite Hc. simpl.
    rewrite list_filter_filter. apply list_filter_iff. intros q'.
    unfold sameKey. rewrite bool_decide_eq_false, not_elem_of_cons.
    intuition congruence.
Qed.

Lemma removeQueries_eq filterKey w :
  exec (removeQueries subscriber filterKey) w
  = exec (removeEach subscriber
            (filter (λ q, partialMatchKey (queryKey q) filterKey = true)
               (queryCache w))) w.
Proof. done. Qed.

(** [removeQueries] leaves exactly the queries its filter does not match. *)
Lemma removeQueries_cache filterKey w :
  queryCache (exec (removeQueries subscriber filterKey) w)
  = filter (λ q, partialMatchKey (queryKey q) filterKey = false) (queryCache w).
Proof.
  rewrite removeQueries_eq, removeEach_cache.
  apply filter_ext_elem. intros q' Hq'. split.
  - intros Hnot. apply not_true_is_false. intros Hm. apply Hnot.
    apply list_elem_of_fmap. exists q'. split; [done|].
    by apply list_elem_of_filter.
  - intros Hm Hin. apply list_elem_of_fmap in Hin as (q & Hk & Hq).
    apply list_elem_of_filter in Hq as [Hq _]. congruence.
Qed.

(** What the listener preserves on every removed query, [removeQueries]
    preserves. *)
Lemma removeEach_preserves {T} (f : World → T) found w :
  (∀ c w0, f (exec (putCache c) w0) = f w0) →
  (∀ q w0, q ∈ found → f (exec (notify subscriber removed q) w0) = f w0) →
  f (exec (removeEach subscriber found) w) = f w.
Proof.
  intros Hput. revert w. induction found as [|q rest IH]; intros w Hnotify; [done|].
  rewrite removeEach_cons, IH.
  - rewrite Hnotify by apply list_elem_of_here. apply Hput.
  - intros q0 w0 Hq0. apply Hnotify. by apply list_elem_of_further.
Qed.

Lemma removeQueries_preserves {T} (f : World → T) filterKey w :
  (∀ c w0, f (exec (putCache c) w0) = f w0) →
  (∀ q w0, partialMatchKey (queryKey q) filterKey = true →
           f (exec (notify subscriber removed q) w0) = f w0) →
  f (exec (removeQueries subscriber filterKey) w) = f w.
Proof.
  intros Hput Hnotify. rewrite removeQueries_eq.
  apply removeEach_preserves; [done|].
  intros q w0 Hq. apply Hnotify. by apply list_elem_of_filter in Hq as [Hq _].
Qed.

Lemma onResetView_eq w :
  exec onResetView w
  = exec (defer ClearResetting)
      (exec (setExtraScreenshots [])
         (exec (removeQueries subscriber ["new_solution"])
            (exec (removeQueries subscriber ["solution"])
               (exec (setIsResetting true) w)))).
Proof. unfold onResetView. by rewrite !exec_bind. Qed.

Lemma onResetView_cache w :
  queryCache (exec onResetView w)
  = filter (λ q, partialMatchKey (queryKey q) ["new_solution"] = false)
      (filter (λ q, partialMatchKey (queryKey q) ["solution"] = false)
         (queryCache w)).
Proof.
  rewrite onResetView_eq. simpl.
  by rewrite !removeQueries_cache.
Qed.

(** *** The reset handler *)

Lemma subscriber_other_event event w :
  keyHeadIs event "solution" = false →
  sameSolutionFields (exec (subscriber event) w) w.
Proof.
  intros Hk. unfold subscriber. rewrite Hk.
  by destruct (keyHeadIs event "problem_statement").
Qed.

Lemma nullish_optChain entry name :
  nullish (optChain (match entry with
                     | Some q => query_data q
                     | None => JUndefined
                     end) name) JNull
  = fieldOrNull entry name.
Proof.
  unfold fieldOrNull.
  destruct entry as [q|]; [|done].
  destruct (query_data q) as [| | | | | |props]; try done.
  simpl. by destruct (lookupProp name props).
Qed.

Lemma subscriber_solution_event event w :
  keyHeadIs event "solution" = true →
  let entry := findQuery ["solution"] (queryCache w) in
  let w' := exec (subscriber event) w in
  solutionData (state w') = fieldOrNull entry "code"
  ∧ thoughtsData (state w') = fieldOrNull entry "thoughts"
  ∧ timeComplexityData (state w') = fieldOrNull entry "time_complexity"
  ∧ spaceComplexityData (state w') = fieldOrNull entry "space_complexity".
Proof.
  intros Hk. simpl. unfold subscriber. rewrite Hk.
  rewrite <- !nullish_optChain.
  by destruct (keyHeadIs event "problem_statement").
Qed.

Lemma subscriber_problem_event event w :
  keyHeadIs event "problem_statement" = true →
  problemStatementData (state (exec (subscriber event) w))
  = orElse (cached ["problem_statement"] w) JNull.
Proof.
  intros Hk. unfold subscriber. rewrite Hk.
  by destruct (keyHeadIs event "solution").
Qed.

Lemma subscriber_solution_gone event w :
  keyHeadIs event "solution" = true →
  findQuery ["solution"] (queryCache w) = None →
  solutionFieldsNull (exec (subscriber event) w).
Proof.
  intros Hk Hnone. unfold solutionFieldsNull.
  destruct (subscriber_solution_event event w Hk) as (-> & -> & -> & ->).
  by rewrite Hnone.
Qed.

(** Once the last query under 'solution' is removed, the subscription has
    cleared the local fields. *)
Lemma removeEach_clears_fields found w :
  found ≠ [] →
  (∀ q, q ∈ found → partialMatchKey (queryKey q) ["solution"] = true) →
  (∀ q, q ∈ queryCache w → queryKey q = ["solution"] →
        queryKey q ∈ map queryKey found) →
  solutionFieldsNull (exec (removeEach subscriber found) w).
Proof.
  revert w. induction found as [|q rest IH]; intros w Hne Hmatch Hall; [done|].
  rewrite removeEach_cons.
  set (w1 := exec (putCache (filter (λ q', sameKey (queryKey q) q' = false)
                               (queryCache w))) w).
  destruct (subscriber_world (Some {| event_type := removed; event_query := q |}) w1)
    as (Hcache & _).
  destruct rest as [|q2 rest].
  - change (exec (removeEach subscriber []) ?w0) with w0.
    apply subscriber_solution_gone.
    + destruct (partialMatchKey_head (queryKey q) "solution") as (tl & Hk).
      { apply Hmatch, list_elem_of_here. }
      simpl. by rewrite Hk.
    + apply find_filter_drop. intros q' Hin Hk Hkeep.
      unfold sameKey in Hkeep. apply bool_decide_eq_false in Hkeep.
      specialize (Hall q' Hin Hk). simpl in Hall.
      apply list_elem_of_singleton in Hall. by rewrite Hall in Hkeep.
  - apply IH; [done| |].
    + intros q' Hq'. apply Hmatch. by apply list_elem_of_further.
    + intros q' Hq' Hk. unfold notify in Hq'. rewrite Hcache in Hq'.
      apply list_elem_of_filter in Hq' as [Hkeep Hin].
      specialize (Hall q' Hin Hk).
      apply elem_of_cons in Hall as [Heq|Hin']; [|done].
      unfold sameKey in Hkeep. apply bool_decide_eq_false in Hkeep.
      by rewrite Heq in Hkeep.
Qed.

(** A reset clears the local solution fields through the subscription,
    provided some query under 'solution' was cached. *)
Lemma onResetView_clears_fields w :
  (∃ q, q ∈ queryCache w ∧ partialMatchKey (queryKey q) ["solution"] = true) →
  solutionFieldsNull (exec onResetView w).
Proof.
  intros (q & Hq & Hm). rewrite onResetView_eq.
  set (w0 := exec (setIsResetting true) w).
  set (w1 := exec (removeQueries subscriber ["solution"]) w0).
  assert (H1 : solutionFieldsNull w1).
  { unfold w1. rewrite removeQueries_eq. apply removeEach_clears_fields.
    - intros Hnil. assert (Hin : q ∈ filter
        (λ q0, partialMatchKey (queryKey q0) ["solution"] = true) (queryCache w0))
        by (by apply list_elem_of_filter).
      rewrite Hnil in Hin. by apply not_elem_of_nil in Hin.
    - intros q0 Hq0. by apply list_elem_of_filter in Hq0 as [Hq0 _].
    - intros q0 Hq0 Hk. apply list_elem_of_fmap. exists q0. split; [done|].
      apply list_elem_of_filter. split; [|done].
      rewrite Hk. apply partialMatchKey_refl. }
  pose (fields := λ w' : World,
          (solutionData (state w'), thoughtsData (state w'),
           timeComplexityData (state w'), spaceComplexityData (state w'))).
  assert (H2 : fields (exec (removeQueries subscriber ["new_solution"]) w1)
               = fields w1).
  { apply removeQueries_preserves; [done|].
    intros q0 w' (rest & Hk)%partialMatchKey_head.
    destruct (subscriber_other_event
                (Some {| event_type := removed; event_query := q0 |}) w')
      as (Ha & Hb & Hc & Hd).
    { simpl. by rewrite Hk. }
    unfold fields, notify. by rewrite Ha, Hb, Hc, Hd. }
  unfold solutionFieldsNull in *. destruct H1 as (Ha & Hb & Hc & Hd).
  unfold fields in H2. rewrite Ha, Hb, Hc, Hd in H2.
  injection H2 as Ha' Hb' Hc' Hd'. done.
Qed.

(** C3. After the reset-view handler has run, no query of the cache has a
    key that starts with 'solution' or with 'new_solution', nothing is
    cached under either key, and the list of extra screenshots is empty. *)
Theorem onResetView_clears_solutions (w : World) :
  let w' := exec onResetView w in
  (∀ q, q ∈ queryCache w' →
        partialMatchKey (queryKey q) ["solution"] = false
        ∧ partialMatchKey (queryKey q) ["new_solution"] = false)
  ∧ findQuery ["solution"] (queryCache w') = None
  ∧ findQuery ["new_solution"] (queryCache w') = None
  ∧ extraScreenshots (state w') = [].
Proof.
  simpl. rewrite onResetView_cache. split; [|split; [|split]].
  - intros q Hq. apply list_elem_of_filter in Hq as [Hnew Hq].
    by apply list_elem_of_filter in Hq as [Hsol _].
  - rewrite find_filter_keep.
    + apply find_filter_drop. by intros q _ ->.
    + by intros q ->.
  - apply find_filter_drop. by intros q _ ->.
  - by rewrite onResetView_eq.
Qed.

(** C10. The reset-view handler does not remove the problem statement: what
    is cached under 'problem_statement' before a reset is cached after it,
    and [problemStatementData] keeps its value, while nothing stays cached
    under 'solution' and 'new_solution'. *)
Theorem onResetView_keeps_problem_statement (w : World) :
  let w' := exec onResetView w in
  findQuery ["problem_statement"] (queryCache w')
  = findQuery ["problem_statement"] (queryCache w)
  ∧ problemStatementData (state w') = problemStatementData (state w)
  ∧ findQuery ["solution"] (queryCache w') = None
  ∧ findQuery ["new_solution"] (queryCache w') = None
  ∧ ((∃ q, q ∈ queryCache w ∧ partialMatchKey (queryKey q) ["solution"] = true) →
     solutionFieldsNull w').
Proof.
  simpl. split; [|split; [|split; [|split]]]; [| | | |apply onResetView_clears_fields].
  - rewrite onResetView_cache, !find_filter_keep; by try intros q ->.
  - rewrite onResetView_eq.
    change (problemStatementData
              (state (exec (removeQueries subscriber ["new_solution"])
                        (exec (removeQueries subscriber ["solution"])
                           (exec (setIsResetting true) w))))
            = problemStatementData (state w)).
    rewrite (removeQueries_preserves (λ w0, problemStatementData (state w0)));
      [rewrite (removeQueries_preserves (λ w0, problemStatementData (state w0)))|..];
      try done.
    + intros q w0 (rest & Hk)%partialMatchKey_head.
      apply subscriber_problemStatement. simpl. by rewrite Hk.
    + intros q w0 (rest & Hk)%partialMatchKey_head.
      apply subscriber_problemStatement. simpl. by rewrite Hk.
  - rewrite onResetView_cache, find_filter_keep.
    + apply find_filter_drop. by intros q _ ->.
    + by intros q ->.
  - rewrite onResetView_cache. apply find_filter_drop. by intros q _ ->.
Qed.

(** *** The start and error handlers *)

(** C7. After the solution-start handler has run, the four local solution
    fields are null, whatever they held before. *)
Theorem onSolutionStart_clears_fields (w : World) :
  let w' := exec onSolutionStart w in
  solutionData (state w') = JNull
  ∧ thoughtsData (state w') = JNull
  ∧ timeComplexityData (state w') = JNull
  ∧ spaceComplexityData (state w') = JNull.
Proof. done. Qed.

Lemma orElse_optChain entry name :
  orElse (optChain (match entry with
                    | Some q => query_data q
                    | None => JUndefined
                    end) name) JNull
  = truthyFieldOrNull entry name.
Proof.
  unfold truthyFieldOrNull, fieldOrNull, orElse.
  destruct entry as [q|]; [|done].
  destruct (query_data q) as [| | | | | |props]; try done.
  simpl. by destruct (lookupProp name props).
Qed.

(** C2, as amended. A debug-error event shows an error toast, clears the
    debug-processing flag, and changes neither the four solution fields nor
    the query cache nor the view. A solution-error event shows an error
    toast and leaves the query cache as it is; it sets the four solution
    fields to the code, thoughts, time_complexity and space_complexity of
    the cached 'solution' entry, null where that is missing or falsy, and
    it switches the view to the queue when no solution is cached. *)
Theorem error_handlers_effect (error : string) (w : World) :
  let entry := findQuery ["solution"] (queryCache w) in
  let w1 := exec (onSolutionError error) w in
  let w2 := exec onDebugError w in
  (toasts w1 = (toasts w ++ [ {| toast_title := "Processing Failed";
                                 toast_description := error;
                                 toast_variant := "error" |} ])%list
   ∧ queryCache w1 = queryCache w
   ∧ view w1 = (if truthy (cached ["solution"] w) then view w else queue)
   ∧ solutionData (state w1) = truthyFieldOrNull entry "code"
   ∧ thoughtsData (state w1) = truthyFieldOrNull entry "thoughts"
   ∧ timeComplexityData (state w1) = truthyFieldOrNull entry "time_complexity"
   ∧ spaceComplexityData (state w1) = truthyFieldOrNull entry "space_complexity")
  ∧ (toasts w2 = (toasts w ++ [ {| toast_title := "Processing Failed";
                                   toast_description :=
                                     "There was an error debugging your code.";
                                   toast_variant := "error" |} ])%list
     ∧ debugProcessing (state w2) = false
     ∧ keepsSolutionCacheView onDebugError w).
Proof.
  simpl. split; [|done].
  rewrite <- !orElse_optChain. fold (cached ["solution"] w).
  unfold onSolutionError. rewrite !exec_bind.
  rewrite getQueryData_snd, !getQueryData_fst.
  change (cached ["solution"] (showToast "Processing Failed" error "error" w).2)
    with (cached ["solution"] w).
  by destruct (truthy (cached ["solution"] w)).
Qed.

(** *** The cache subscription *)

(** C4, as amended. On a cache notification whose query key starts with
    'solution' the subscription sets the four local fields to the code,
    thoughts, time_complexity and space_complexity of the entry cached under
    'solution', null for a field that is absent and when there is no entry.
    On one whose key starts with 'problem_statement' it sets
    [problemStatementData] to the entry cached under 'problem_statement'
    when that entry is truthy, as every object is, and to null otherwise:
    when there is none and when it is undefined, null, false, zero or the
    empty string. *)
Theorem subscriber_sets_fields (ev : CacheEvent) (w : World) :
  let w' := exec (subscriber (Some ev)) w in
  (head (queryKey (event_query ev)) = Some "solution" →
     let entry := findQuery ["solution"] (queryCache w) in
     solutionData (state w') = fieldOrNull entry "code"
     ∧ thoughtsData (state w') = fieldOrNull entry "thoughts"
     ∧ timeComplexityData (state w') = fieldOrNull entry "time_complexity"
     ∧ spaceComplexityData (state w') = fieldOrNull entry "space_complexity")
  ∧ (head (queryKey (event_query ev)) = Some "problem_statement" →
     problemStatementData (state w')
     = match findQuery ["problem_statement"] (queryCache w) with
       | Some q => if truthy (query_data q) then query_data q else JNull
       | None => JNull
       end).
Proof.
  simpl. split; intros Hhead.
  - apply (subscriber_solution_event (Some ev) w). simpl.
    destruct (queryKey (event_query ev)) as [|k rest]; [done|].
    injection Hhead as ->. done.
  - assert (Hk : keyHeadIs (Some ev) "problem_statement" = true).
    { simpl. destruct (queryKey (event_query ev)) as [|k rest]; [done|].
      injection Hhead as ->. done. }
    rewrite (subscriber_problem_event (Some ev) w Hk). unfold cached.
    by destruct (findQuery ["problem_statement"] (queryCache w)).
Qed.

(** *** Rendering *)

Lemma filter_jsxAnd (P : Element → bool) cond children :
  P (Text "0") = false →
  filter P (jsxAnd cond children) = if truthy cond then filter P children else [].
Proof.
  intros HP. unfold jsxAnd. destruct (truthy cond); [done|].
  destruct cond; try done.
  rewrite filter_cons_False; [done|].
  intros Hc. simpl in Hc. by rewrite HP in Hc.
Qed.

Lemma filter_jsxWhen (P : Element → bool) cond children :
  filter P (jsxWhen cond children) = if cond then filter P children else [].
Proof. by destruct cond. Qed.

(** C5, as amended. Unless the debug view is shown (a debugged solution is
    cached and the view is not resetting): in mode 'SystemDesign' the
    component renders the tab bar with the five tabs 'Description',
    'Requirements', 'Diagram', 'Database Schema' and 'Tradeoff', no coding
    section, and for each of the five values of the active tab exactly the
    content of that tab: the description, the requirements, the laid-out
    diagram with its walkthrough, the database schema, the trade-offs; in
    mode 'Coding' it renders neither the tab bar nor any tab content but the
    coding sections: thoughts, solution and complexity once there is a
    solution, the problem statement before. The tab active at first is
    'Diagram'. *)
Theorem render_by_mode (props : Props) (w : World) :
  showsDebug w = false →
  let out := render dagre_layout props w in
  let active := activeSystemDesignSolutionTab (state w) in
  (currentInterviewMode props = "SystemDesign" →
     filter isTabBar out
     = [ TabBar ["Description"; "Requirements"; "Diagram"; "Database Schema"; "Tradeoff"]
           active ]
     ∧ filter isCodingSection out = []
     ∧ (active = "Description" →
          filter isTabContent out = [ SystemDesignDescriptionSection ])
     ∧ (active = "Requirements" →
          filter isTabContent out = [ RequirementsSection ])
     ∧ (active = "Diagram" →
          filter isTabContent out
          = [ DiagramTab (fst (diagram dagre_layout)) (snd (diagram dagre_layout)) ])
     ∧ (active = "Database Schema" →
          filter isTabContent out = [ DatabaseSchema ])
     ∧ (active = "Tradeoff" →
          filter isTabContent out = [ TradeOffSession ]))
  ∧ (currentInterviewMode props = "Coding" →
     filter isTabBar out = []
     ∧ filter isTabContent out = []
     ∧ (truthy (solutionData (state w)) = true →
          filter isCodingSection out
          = [ ThoughtsSection (thoughtsData (state w))
                (negb (truthy (thoughtsData (state w))));
              SolutionSection (solutionData (state w)) false (currentLanguage props);
              ComplexitySection (timeComplexityData (state w))
                (spaceComplexityData (state w))
                (negb (truthy (timeComplexityData (state w)))
                 || negb (truthy (spaceComplexityData (state w)))) ])
     ∧ (truthy (solutionData (state w)) = false →
          filter isCodingSection out
          = ProblemStatementSection
              (optChain (problemStatementData (state w)) "problem_statement")
              (negb (truthy (problemStatementData (state w))))
            :: (if truthy (problemStatementData (state w))
                then [ GeneratingSolutions ] else [])))
  ∧ activeSystemDesignSolutionTab initialState = "Diagram".
Proof.
  intros Hd. cbv zeta. unfold render. unfold showsDebug, cached in Hd. rewrite Hd.
  generalize (diagram dagre_layout). intros d.
  destruct props as [cr lang mode].
  cbn [currentInterviewMode currentLanguage credits]. cbv zeta.
  split; [|split; [|done]].
  - intros ->.
    rewrite !filter_app, !filter_jsxAnd, !filter_jsxWhen by done.
    rewrite ?filter_jsxWhen. simpl.
    destruct (truthy (solutionData (state w))); simpl.
    + repeat split; try (intros ->; done);
        repeat (match goal with
                | |- context [String.eqb ?a ?b] => destruct (String.eqb a b)
                end; simpl); done.
    + repeat split; try (intros ->; done);
        repeat (match goal with
                | |- context [String.eqb ?a ?b] => destruct (String.eqb a b)
                end; simpl); done.
  - intros ->.
    rewrite !filter_app, !filter_jsxAnd, !filter_jsxWhen by done.
    rewrite ?filter_jsxWhen. simpl. rewrite ?filter_jsxAnd by done.
    destruct (truthy (solutionData (state w))); simpl.
    + repeat split; try done.
    + rewrite !filter_cons. simpl. rewrite !filter_jsxAnd by done.
      repeat split; try done;
        by destruct (truthy (problemStatementData (state w))).
Qed.

End ViewFacts.

Import View ViewSpec.

(** C2, as stated, fails for the solution-error handler: with no solution
    cached it switches the view to the queue, and after a restart it puts
    the cached solution back into the fields that the start had cleared. *)
Lemma error_handlers_counterexample :
  ¬ keepsSolutionCacheView (onSolutionError "timeout") initialWorld
  ∧ ¬ keepsSolutionCacheView (onSolutionError "timeout") retryWorld.
Proof.
  split.
  - intros (_ & _ & _ & _ & _ & Hview). vm_compute in Hview. discriminate.
  - intros (Hdata & _). vm_compute in Hdata. discriminate.
Qed.

(** C5, as stated, fails once a debugged solution is cached: in either mode
    the component then renders the debug view and nothing else. *)
Lemma render_counterexample :
  render Layout.sampleLayout systemDesignProps debuggedWorld
  = [ DebugView false "python" "SystemDesign" ]
  ∧ render Layout.sampleLayout codingProps debuggedWorld
    = [ DebugView false "python" "Coding" ].
Proof. split; vm_compute; reflexivity. Qed.

(** The System Design mode on a solved problem, the Diagram tab active. *)
Lemma render_by_mode_witness :
  filter isTabContent (render Layout.sampleLayout systemDesignProps solvedWorld)
  = [ DiagramTab (fst (diagram Layout.sampleLayout)) (snd (diagram Layout.sampleLayout)) ].
Proof.
  destruct (render_by_mode Layout.sampleLayout systemDesignProps solvedWorld)
    as (Hsd & _); [reflexivity|].
  destruct (Hsd eq_refl) as (_ & _ & _ & _ & Hdiagram & _).
  apply Hdiagram. reflexivity.
Defined.

(** An update of the cached solution reaches the fields that a restart had
    cleared, and an update of the cached problem statement reaches
    [problemStatementData]. *)
Lemma subscriber_sets_fields_witness :
  solutionData
    (state (exec (subscriber
                    (Some {| event_type := updated;
                             event_query := {| queryKey := ["solution"];
                                               query_data := sampleSolution |} |}))
              retryWorld))
  = JStr "def two_sum(nums, target): return lookup(nums, target)"
  ∧ problemStatementData
      (state (exec (subscriber
                      (Some {| event_type := updated;
                               event_query := {| queryKey := ["problem_statement"];
                                                 query_data := sampleProblem |} |}))
                retryWorld))
    = sampleProblem.
Proof.
  split.
  - destruct (subscriber_sets_fields
                {| event_type := updated;
                   event_query := {| queryKey := ["solution"];
                                     query_data := sampleSolution |} |}
                retryWorld) as (Hsolution & _).
    destruct (Hsolution eq_refl) as (Hcode & _).
    exact Hcode.
  - destruct (subscriber_sets_fields
                {| event_type := updated;
                   event_query := {| queryKey := ["problem_statement"];
                                     query_data := sampleProblem |} |}
                retryWorld) as (_ & Hproblem).
    exact (Hproblem eq_refl).
Defined.

(** C4, as stated, fails when the host sends the empty string as the
    problem statement: the string is cached under 'problem_statement', and
    the notification for that key sets [problemStatementData] to null, not
    to the cached entry. *)
Lemma subscriber_sets_fields_counterexample :
  let q := {| queryKey := ["problem_statement"]; query_data := JStr "" |} in
  let w' := exec (subscriber (Some {| event_type := updated; event_query := q |}))
              blankProblemWorld in
  findQuery ["problem_statement"] (queryCache blankProblemWorld) = Some q
  ∧ problemStatementData (state w') = JNull
  ∧ problemStatementData (state w') ≠ query_data q.
Proof. vm_compute. repeat split. discriminate. Qed.

(* ===================================================================== *)
(** ** More theorems: graph layout *)
(* ===================================================================== *)

Section LayoutMoreFacts.
Import Layout LayoutSpec LayoutMore.

Variable dagre_layout : DagreGraph → string → XY.

(** *** What dagre is given *)

Lemma foldl_setNode g nodes :
  foldl (λ g node, setNode g (node_id node)
                     {| size_width := nodeWidth; size_height := nodeHeight |}) g nodes
  = {| graph_label := graph_label g;
       graph_nodes := (graph_nodes g
                       ++ map (λ node, (node_id node,
                                        {| size_width := 120; size_height := 60 |}))
                              nodes)%list;
       graph_edges := graph_edges g |}.
Proof.
  revert g. induction nodes as [|node rest IH]; intros g; simpl.
  - rewrite app_nil_r. by destruct g.
  - rewrite IH. simpl. by rewrite <- app_assoc.
Qed.

Lemma foldl_setEdge g edges :
  foldl (λ g edge, setEdge g (source edge) (target edge) 1) g edges
  = {| graph_label := graph_label g;
       graph_nodes := graph_nodes g;
       graph_edges := (graph_edges g
                       ++ map (λ edge, (source edge, target edge, 1)) edges)%list |}.
Proof.
  revert g. induction edges as [|edge rest IH]; intros g; simpl.
  - rewrite app_nil_r. by destruct g.
  - rewrite IH. simpl. by rewrite <- app_assoc.
Qed.

Lemma buildGraph_dagreInput nodes edges direction :
  buildGraph nodes edges direction = dagreInput nodes edges direction.
Proof.
  unfold buildGraph. by rewrite foldl_setEdge, foldl_setNode.
Qed.


(** *** Offsets away from fan-out points *)

Lemma labelTransform_in_offsets direction nodeMap sourceToTargets e :
  labelTransform direction nodeMap sourceToTargets e ∈ labelOffsets.
Proof.
  unfold labelTransform, labelOffsets.
  destruct direction; try set_solver.
  destruct (nodeMap !! source e) as [sp|]; [|set_solver].
  destruct (nodeMap !! target e) as [tp|]; [|set_solver].
  destruct (sourceToTargets !! source e) as [fanout|].
  - destruct (1 <? Z.of_nat (length fanout)).
    + destruct (findIndex (target e) (sortByX fanout) =? 0); [set_solver|].
      destruct (findIndex (target e) (sortByX fanout)
                =? Z.of_nat (length (sortByX fanout)) - 1); set_solver.
    + destruct (x sp <? x tp); [set_solver|].
      destruct (x tp <? x sp); set_solver.
  - destruct (x sp <? x tp); [set_solver|].
    destruct (x tp <? x sp); set_solver.
Qed.

(** X2. Whatever the input and the layout, every edge the function returns
    carries a label style, and its transform is one of the four offsets
    'translate(0px, -16px)', 'translate(-100px, -16px)',
    'translate(100px, -16px)' and 'translate(0px, -20px)'. *)
Theorem label_offset_is_one_of_four nodes edges direction out :
  getLayoutedElements dagre_layout nodes edges direction = Some out →
  Forall (λ e', ∃ st, labelStyle e' = Some st ∧ transform st ∈ labelOffsets)
    (snd out).
Proof.
  intros Hout.
  apply getLayoutedElements_inv in Hout as (_ & s2t & _ & _ & ->). simpl.
  apply Forall_fmap, Forall_forall. intros e _. simpl.
  eexists. split; [done|]. simpl. apply labelTransform_in_offsets.
Qed.

(** X3. For the directions 'BT', 'LR' and 'RL' no label is moved sideways:
    every edge the function returns has the transform
    'translate(0px, -16px)'. *)
Theorem other_directions_default_offset nodes edges direction out :
  direction ≠ TB →
  getLayoutedElements dagre_layout nodes edges direction = Some out →
  Forall (λ e', transform <$> labelStyle e' = Some "translate(0px, -16px)")
    (snd out).
Proof.
  intros Hd Hout.
  apply getLayoutedElements_inv in Hout as (_ & s2t & _ & _ & ->). simpl.
  apply Forall_fmap, Forall_forall. intros e _. simpl.
  by destruct direction.
Qed.

(** X4. When the function returns, an edge one of whose ends is not a node
    of the input keeps the transform 'translate(0px, -16px)', in every
    direction and however many edges leave its source. *)
Theorem missing_endpoint_default_offset nodes edges direction out i e :
  getLayoutedElements dagre_layout nodes edges direction = Some out →
  edges !! i = Some e →
  laidOut nodes (source e) = false ∨ laidOut nodes (target e) = false →
  transformOf out i = Some "translate(0px, -16px)".
Proof.
  intros Hout Hi Hmissing.
  destruct (transformOf_eq _ _ _ _ _ _ _ Hout Hi) as (s2t & _ & ->). f_equal.
  unfold labelTransform. rewrite !nodeMap_lookup. unfold centreOf.
  destruct direction; try done.
  destruct Hmissing as [-> | ->]; [done|].
  by destruct (laidOut nodes (source e)).
Qed.

(** X5. In direction 'TB', when the function returns, an edge that is the
    only one leaving its source, with both ends among the nodes, has its
    label moved left when the source lies left of the target, right when it
    lies right of it, and only lifted when both have the same
    x-coordinate. *)
Theorem single_edge_offset nodes edges out i e :
  getLayoutedElements dagre_layout nodes edges TB = Some out →
  edges !! i = Some e →
  laidOut nodes (source e) = true →
  laidOut nodes (target e) = true →
  length (fanoutOf dagre_layout nodes edges TB (source e)) = 1%nat →
  let g := buildGraph nodes edges TB in
  let sx := x (dagre_layout g (source e)) in
  let tx := x (dagre_layout g (target e)) in
  (sx < tx → transformOf out i = Some "translate(-100px, -16px)")
  ∧ (tx < sx → transformOf out i = Some "translate(100px, -16px)")
  ∧ (sx = tx → transformOf out i = Some "translate(0px, -16px)").
Proof.
  intros Hout Hi Hs Ht Hlen. simpl.
  destruct (transformOf_eq _ _ _ _ _ _ _ Hout Hi) as (s2t & Hfan & ->).
  unfold labelTransform. rewrite !nodeMap_lookup. unfold centreOf. rewrite Hs, Ht.
  rewrite Hfan, Hlen. simpl.
  repeat split; intros Hcmp; f_equal.
  - destruct (Z.ltb_spec (x (dagre_layout (buildGraph nodes edges TB) (source e)))
                (x (dagre_layout (buildGraph nodes edges TB) (target e)))); [done|lia].
  - destruct (Z.ltb_spec (x (dagre_layout (buildGraph nodes edges TB) (source e)))
                (x (dagre_layout (buildGraph nodes edges TB) (target e)))); [lia|].
    destruct (Z.ltb_spec (x (dagre_layout (buildGraph nodes edges TB) (target e)))
                (x (dagre_layout (buildGraph nodes edges TB) (source e)))); [done|lia].
  - rewrite Hcmp. by rewrite Z.ltb_irrefl.
Qed.

(** X6. When the function returns, two edges with the same source and the
    same target come back with the same looks: the same marker, style,
    label style (hence the same label offset) and label background. *)
Theorem parallel_edges_same_looks nodes edges direction out i j e1 e2 :
  getLayoutedElements dagre_layout nodes edges direction = Some out →
  edges !! i = Some e1 →
  edges !! j = Some e2 →
  source e1 = source e2 →
  target e1 = target e2 →
  ∃ e1' e2',
    snd out !! i = Some e1'
    ∧ snd out !! j = Some e2'
    ∧ edgeLooks e1' = edgeLooks e2'.
Proof.
  intros Hout Hi Hj Hs Ht.
  apply getLayoutedElements_inv in Hout as (_ & s2t & _ & _ & ->). simpl.
  rewrite !list_lookup_fmap, Hi, Hj. simpl.
  eexists _, _. split; [done|]. split; [done|].
  unfold edgeLooks, layoutEdge, labelTransform. simpl. by rewrite Hs, Ht.
Qed.

(** *** What the function leaves alone *)

(** X25. Whenever the function returns, the node and edge lists it returns
    are as long as its inputs and in their order; every node keeps its id,
    its data label and its other fields, and is put at the dagre centre
    minus half the node size; every edge keeps its id, source, target and
    other fields, and its label text, the empty string standing in for a
    missing label. *)
Theorem layout_keeps_ids_and_labels nodes edges direction out :
  getLayoutedElements dagre_layout nodes edges direction = Some out →
  length (fst out) = length nodes
  ∧ length (snd out) = length edges
  ∧ Forall2 (λ node node',
       node_id node' = node_id node
       ∧ data_label node' = data_label node
       ∧ node_other node' = node_other node
       ∧ position node'
         = {| x := x (dagre_layout (buildGraph nodes edges direction) (node_id node))
                   - nodeWidth / 2;
              y := y (dagre_layout (buildGraph nodes edges direction) (node_id node))
                   - nodeHeight / 2 |})
     nodes (fst out)
  ∧ Forall2 (λ edge edge',
       edge_id edge' = edge_id edge
       ∧ source edge' = source edge
       ∧ target edge' = target edge
       ∧ label edge' = Some (default "" (label edge))
       ∧ edge_other edge' = edge_other edge)
     edges (snd out).
Proof.
  intros Hout. apply getLayoutedElements_inv in Hout as (_ & s2t & _ & _ & ->). simpl.
  rewrite !length_map. repeat split.
  - apply Forall2_fmap_r, Forall_Forall2_diag, Forall_forall. by intros node _.
  - apply Forall2_fmap_r, Forall_Forall2_diag, Forall_forall. by intros edge _.
Qed.

(** *** When the function returns *)

(** X26. The function returns exactly when no edge leaves a node named like
    a member of Object.prototype ('constructor', 'toString', 'valueOf',
    'hasOwnProperty', '__proto__' and the like); the nodes, the targets of
    the edges, the direction and the layout play no part in it. *)
Theorem layout_returns_unless_member_named nodes edges direction :
  is_Some (getLayoutedElements dagre_layout nodes edges direction)
  ↔ plainSources edges.
Proof.
  split.
  - intros [out Hout]. by apply getLayoutedElements_inv in Hout as [Hplain _].
  - apply getLayoutedElements_returns.
Qed.

(** *** Laying out a laid-out graph *)

Lemma laidOut_ids nodes1 nodes2 id :
  map node_id nodes1 = map node_id nodes2 →
  laidOut nodes1 id = laidOut nodes2 id.
Proof. intros H. unfold laidOut. by rewrite H. Qed.

Lemma foldl_pushFanout_layoutEdge direction nodeMap sourceToTargets nm acc edges :
  foldl (λ acc edge, acc ≫= λ s2t, pushFanout nm s2t edge) acc
    (map (layoutEdge direction nodeMap sourceToTargets) edges)
  = foldl (λ acc edge, acc ≫= λ s2t, pushFanout nm s2t edge) acc edges.
Proof.
  revert acc. induction edges as [|e rest IH]; intros acc; [done|].
  simpl. by rewrite <- IH.
Qed.

(** X7. Laying out a result again changes nothing: applied to the nodes and
    edges it returned, in the same direction, the function returns them
    unchanged. *)
Theorem getLayoutedElements_idempotent nodes edges direction out :
  getLayoutedElements dagre_layout nodes edges direction = Some out →
  getLayoutedElements dagre_layout (fst out) (snd out) direction = Some out.
Proof.
  intros Hout.
  apply getLayoutedElements_inv in Hout as (_ & s2t & Hbuild & _ & ->).
  cbn [fst snd].
  set (g := buildGraph nodes edges direction) in *.
  set (nm := snd (layoutNodes dagre_layout g direction ∅ nodes)) in *.
  set (ns := map (λ node, fst (layoutNode dagre_layout g direction ∅ node)) nodes).
  set (es := map (layoutEdge direction nm s2t) edges).
  assert (Hids : map node_id ns = map node_id nodes).
  { unfold ns. rewrite map_map. done. }
  assert (Hends : map (λ e, (source e, target e)) es
                  = map (λ e, (source e, target e)) edges).
  { unfold es. rewrite map_map. done. }
  assert (Hg : buildGraph ns es direction = g).
  { unfold g. rewrite !buildGraph_dagreInput. unfold dagreInput. f_equal.
    - transitivity (map (λ id : string, (id, {| size_width := 120; size_height := 60 |}))
                      (map node_id ns)); [by rewrite map_map|].
      rewrite Hids. by rewrite map_map.
    - transitivity (map (λ st : string * string, (st, 1))
                      (map (λ e, (source e, target e)) es)); [by rewrite map_map|].
      rewrite Hends. by rewrite map_map. }
  rewrite getLayoutedElements_eq. cbv zeta. rewrite Hg.
  assert (Hnm : snd (layoutNodes dagre_layout g direction ∅ ns) = nm).
  { apply map_eq. intros id. unfold nm. rewrite !layoutNodes_snd.
    by rewrite (laidOut_ids ns nodes id Hids). }
  rewrite Hnm.
  assert (Hbuild' : buildFanout nm es = Some s2t).
  { unfold buildFanout, es. rewrite foldl_pushFanout_layoutEdge. exact Hbuild. }
  rewrite Hbuild'. simpl. f_equal. f_equal.
  - unfold ns. rewrite map_map. done.
  - unfold es. rewrite map_map.
    apply map_ext. intros e. unfold layoutEdge, labelTransform. simpl.
    by destruct (label e).
Qed.

(** *** Fan-out points, by the coordinates of the targets *)

Lemma StronglySorted_lookup_leX l a b ta tb :
  StronglySorted leX l →
  l !! a = Some ta → l !! b = Some tb → (a ≤ b)%nat → leX ta tb.
Proof.
  intros Hs. revert a b. induction Hs as [|t l Hs IH Hall]; intros a b Ha Hb Hab.
  - done.
  - destruct a as [|a'], b as [|b']; simpl in *.
    + injection Ha as <-. injection Hb as <-. unfold leX. lia.
    + injection Ha as <-. rewrite Forall_forall in Hall.
      apply Hall. by eapply list_elem_of_lookup_2.
    + lia.
    + apply (IH a' b'); [done|done|lia].
Qed.

Lemma fanout_entry nodes edges direction s t :
  t ∈ fanoutOf dagre_layout nodes edges direction s →
  ∃ e', e' ∈ edges ∧ source e' = s ∧ targetId t = target e'
        ∧ target_x t = targetXOf dagre_layout nodes edges direction (target e').
Proof.
  unfold fanoutOf. intros Hin.
  apply list_elem_of_In, in_map_iff in Hin as (e' & <- & Hin).
  apply list_elem_of_In, list_elem_of_filter in Hin as [Hs Hin].
  by exists e'.
Qed.

Lemma fanout_has_edge nodes edges direction e' :
  e' ∈ edges →
  {| targetId := target e';
     target_x := targetXOf dagre_layout nodes edges direction (target e') |}
  ∈ fanoutOf dagre_layout nodes edges direction (source e').
Proof.
  intros Hin. unfold fanoutOf.
  apply list_elem_of_In, in_map_iff. exists e'. split; [done|].
  by apply list_elem_of_In, list_elem_of_filter.
Qed.

(** X8. At a fan-out point in direction 'TB' (the function returns, more
    than one edge leaves the source, both ends of the edge are nodes), the
    offset follows the x-coordinates of the targets. If every other target
    of the source lies strictly to the right of the edge's target, the
    label is moved left. If every other target lies strictly to its left
    and no second edge joins the same two nodes, it is moved right. If some
    target lies strictly left and some strictly right of it, it is only
    lifted. *)
Theorem fanout_offset_by_coordinates nodes edges out i e :
  getLayoutedElements dagre_layout nodes edges TB = Some out →
  edges !! i = Some e →
  laidOut nodes (source e) = true →
  laidOut nodes (target e) = true →
  (1 < length (fanoutOf dagre_layout nodes edges TB (source e)))%nat →
  let X := targetXOf dagre_layout nodes edges TB in
  ((∀ e', e' ∈ edges → source e' = source e → target e' ≠ target e →
          X (target e) < X (target e')) →
     transformOf out i = Some "translate(-100px, -16px)")
  ∧ ((∀ e', e' ∈ edges → source e' = source e → target e' ≠ target e →
            X (target e') < X (target e)) →
     onlyEdgeBetween edges e →
     transformOf out i = Some "translate(100px, -16px)")
  ∧ ((∃ e1, e1 ∈ edges ∧ source e1 = source e ∧ X (target e1) < X (target e)) →
     (∃ e2, e2 ∈ edges ∧ source e2 = source e ∧ X (target e) < X (target e2)) →
     transformOf out i = Some "translate(0px, -20px)").
Proof.
  intros Hout Hi Hs Ht Hlen. simpl.
  assert (Hin : e ∈ edges) by (by eapply list_elem_of_lookup_2).
  destruct (transformOf_eq _ _ _ _ _ _ _ Hout Hi) as (s2t & Hfan & ->).
  rewrite labelTransform_fanout by done. simpl.
  set (fanout := fanoutOf dagre_layout nodes edges TB (source e)) in *.
  set (sorted := sortByX fanout).
  set (X := targetXOf dagre_layout nodes edges TB).
  assert (Hperm : Permutation sorted fanout) by apply sortByX_Permutation.
  assert (Hsorted : StronglySorted leX sorted) by apply sortByX_sorted.
  assert (Hlen' : length sorted = length fanout) by apply sortByX_length.
  assert (Hentry : ∀ k t, sorted !! k = Some t →
            ∃ e', e' ∈ edges ∧ source e' = source e ∧ targetId t = target e'
                  ∧ target_x t = X (target e')).
  { intros k t Hk. apply (fanout_entry nodes edges TB).
    fold fanout. rewrite <- Hperm. by eapply list_elem_of_lookup_2. }
  assert (Hhas : ∀ e', e' ∈ edges → source e' = source e →
            ∃ k t, sorted !! k = Some t ∧ targetId t = target e'
                   ∧ target_x t = X (target e')).
  { intros e' He' Hse'.
    pose proof (fanout_has_edge nodes edges TB e' He') as Hmem.
    rewrite Hse' in Hmem. fold fanout in Hmem. rewrite <- Hperm in Hmem.
    apply list_elem_of_lookup in Hmem as (k & Hk). by eexists k, _. }
  destruct (findIndex_spec (target e) sorted) as (j & t & Hidx & Hj & Htj & Hfirst).
  { rewrite Hperm. by apply target_in_fanout. }
  rewrite Hidx.
  assert (Hjlt : (j < length sorted)%nat) by (by eapply lookup_lt_Some).
  destruct (Hentry j t Hj) as (ej & _ & _ & Hej & Hxj).
  assert (Hxt : target_x t = X (target e)) by (rewrite Hxj; congruence).
  split; [|split].
  - (* every other target strictly to the right *)
    intros Hleft.
    destruct j as [|j']; [done|]. exfalso.
    destruct (lookup_lt_is_Some_2 sorted 0%nat) as [t0 H0]; [lia|].
    destruct (Hentry 0%nat t0 H0) as (e0 & He0 & Hs0 & Hid0 & Hx0).
    assert (Hne : target e0 ≠ target e).
    { rewrite <- Hid0. apply (Hfirst 0%nat t0 H0). lia. }
    specialize (Hleft e0 He0 Hs0 Hne).
    pose proof (StronglySorted_lookup_leX sorted 0 (S j') t0 t Hsorted H0 Hj) as Hle.
    unfold leX in Hle. lia.
  - (* every other target strictly to the left, no parallel edge *)
    intros Hright Honly.
    destruct (lookup_lt_is_Some_2 sorted (pred (length sorted))) as [tl Hl]; [lia|].
    destruct (Hentry _ tl Hl) as (el & Hel & Hsl & Hidl & Hxl).
    assert (Hidl' : targetId tl = target e).
    { destruct (decide (target el = target e)) as [Heq|Hne]; [congruence|].
      specialize (Hright el Hel Hsl Hne).
      pose proof (StronglySorted_lookup_leX sorted j (pred (length sorted)) t tl
                    Hsorted Hj Hl) as Hle.
      unfold leX in Hle. lia. }
    assert (Hj' : j = pred (length sorted)).
    { destruct (decide (j = pred (length sorted))) as [|Hne]; [done|]. exfalso.
      assert (Hcount : (2 ≤ length (filter (λ t', targetId t' = target e) sorted))%nat).
      { apply (filter_two_occurrences _ sorted j (pred (length sorted)) t tl);
          [done|done|lia|done|done]. }
      pose proof (onlyEdgeBetween_once dagre_layout nodes edges e Honly) as Honce.
      fold fanout in Honce. fold sorted in Honce. lia. }
    rewrite Hj'.
    destruct (Z.eqb_spec (Z.of_nat (pred (length sorted))) 0); [lia|].
    destruct (Z.eqb_spec (Z.of_nat (pred (length sorted)))
                (Z.of_nat (length sorted) - 1)); [done|lia].
  - (* a target strictly left and one strictly right *)
    intros (e1 & He1 & Hs1 & Hx1) (e2 & He2 & Hs2 & Hx2).
    destruct (Hhas e1 He1 Hs1) as (k1 & t1 & Hk1 & _ & Hxt1).
    destruct (Hhas e2 He2 Hs2) as (k2 & t2 & Hk2 & _ & Hxt2).
    destruct (Z.eqb_spec (Z.of_nat j) 0) as [H0|H0].
    { exfalso.
      pose proof (StronglySorted_lookup_leX sorted j k1 t t1 Hsorted Hj Hk1) as Hle.
      unfold leX in Hle. lia. }
    destruct (Z.eqb_spec (Z.of_nat j) (Z.of_nat (length sorted) - 1)) as [H1|H1]; [|done].
    exfalso.
    assert (Hk2lt : (k2 < length sorted)%nat) by (by eapply lookup_lt_Some).
    pose proof (StronglySorted_lookup_leX sorted k2 j t2 t Hsorted Hk2 Hj) as Hle.
    unfold leX in Hle. lia.
Qed.

End LayoutMoreFacts.

Import Layout LayoutSpec LayoutMore.


(** The edges of the mock diagram. *)
Lemma label_offset_is_one_of_four_witness :
  Forall (λ e', ∃ st, labelStyle e' = Some st ∧ transform st ∈ labelOffsets)
    (snd laidOutMock).
Proof.
  apply (label_offset_is_one_of_four sampleLayout mockNodes mockEdges TB laidOutMock).
  vm_compute. reflexivity.
Defined.

(** The mock diagram laid out from left to right. *)
Lemma other_directions_default_offset_witness :
  Forall (λ e', transform <$> labelStyle e' = Some "translate(0px, -16px)")
    (snd (default ([], []) (getLayoutedElements sampleLayout mockNodes mockEdges LR))).
Proof.
  apply (other_directions_default_offset sampleLayout mockNodes mockEdges LR).
  - discriminate.
  - vm_compute. reflexivity.
Defined.

(** The edge to the component "12", which the mock diagram does not have. *)
Lemma missing_endpoint_default_offset_witness :
  transformOf
    (default ([], []) (getLayoutedElements sampleLayout mockNodes mockEdgesDangling TB))
    12
  = Some "translate(0px, -16px)".
Proof.
  apply (missing_endpoint_default_offset sampleLayout mockNodes mockEdgesDangling TB
           (default ([], [])
              (getLayoutedElements sampleLayout mockNodes mockEdgesDangling TB))
           12 (mkEdge "e11-12" "11" "12" "Export report")).
  - vm_compute. reflexivity.
  - reflexivity.
  - right. vm_compute. reflexivity.
Defined.

(** The edge "e6-9": Engine A lies left of the Result Aggregator. *)
Lemma single_edge_offset_witness :
  transformOf laidOutMock 7 = Some "translate(-100px, -16px)".
Proof.
  destruct (single_edge_offset sampleLayout mockNodes mockEdges laidOutMock 7
              (mkEdge "e6-9" "6" "9" "Return scan result")) as (Hleft & _).
  - vm_compute. reflexivity.
  - reflexivity.
  - vm_compute. reflexivity.
  - vm_compute. reflexivity.
  - vm_compute. reflexivity.
  - apply Hleft. vm_compute. reflexivity.
Defined.

(** The two storage edges of the doubled mock diagram. *)
Lemma parallel_edges_same_looks_witness :
  ∃ e1' e2',
    snd (default ([], [])
           (getLayoutedElements sampleLayout mockNodes mockEdgesParallel TB)) !! 1%nat
    = Some e1'
    ∧ snd (default ([], [])
             (getLayoutedElements sampleLayout mockNodes mockEdgesParallel TB)) !! 12%nat
      = Some e2'
    ∧ edgeLooks e1' = edgeLooks e2'.
Proof.
  apply (parallel_edges_same_looks sampleLayout mockNodes mockEdgesParallel TB
           (default ([], [])
              (getLayoutedElements sampleLayout mockNodes mockEdgesParallel TB))
           1 12
           (mkEdge "e2-3" "2" "3" "Store binary")
           (mkEdge "e2-3b" "2" "3" "Store thumbnail"));
    [vm_compute; reflexivity | reflexivity..].
Defined.

(** The mock diagram keeps its eleven components and twelve connections. *)
Lemma layout_keeps_ids_and_labels_witness :
  length (fst laidOutMock) = 11%nat
  ∧ length (snd laidOutMock) = 12%nat
  ∧ map node_id (fst laidOutMock) = map node_id mockNodes
  ∧ map label (snd laidOutMock) = map label mockEdges.
Proof.
  destruct (layout_keeps_ids_and_labels sampleLayout mockNodes mockEdges TB laidOutMock)
    as (Hn & He & _ & _).
  - vm_compute. reflexivity.
  - split; [exact Hn|]. split; [exact He|]. split; vm_compute; reflexivity.
Defined.

(** The mock diagram is laid out; the graph with the service called
    "constructor" is not. *)
Lemma layout_returns_unless_member_named_witness :
  is_Some (getLayoutedElements sampleLayout mockNodes mockEdges TB)
  ∧ ¬ is_Some (getLayoutedElements sampleLayout memberNamedNodes memberNamedEdges TB).
Proof.
  split.
  - apply (layout_returns_unless_member_named sampleLayout mockNodes mockEdges TB).
    match goal with |- ?G => apply (bool_decide_eq_true_1 G) end.
    vm_compute. reflexivity.
  - intros Hreturns.
    apply (layout_returns_unless_member_named sampleLayout memberNamedNodes
             memberNamedEdges TB) in Hreturns.
    apply Forall_cons in Hreturns as [Hconstructor _].
    apply Hconstructor. vm_compute. apply list_elem_of_here.
Defined.

(** The mock diagram, laid out twice. *)
Lemma getLayoutedElements_idempotent_witness :
  getLayoutedElements sampleLayout (fst laidOutMock) (snd laidOutMock) TB
  = Some laidOutMock.
Proof.
  apply (getLayoutedElements_idempotent sampleLayout mockNodes mockEdges TB laidOutMock).
  vm_compute. reflexivity.
Defined.

(** The edge "e5-8": the sandbox engine is the rightmost of the three. *)
Lemma fanout_offset_by_coordinates_witness :
  transformOf laidOutMock 6 = Some "translate(100px, -16px)".
Proof.
  destruct (fanout_offset_by_coordinates sampleLayout mockNodes mockEdges laidOutMock 6
              (mkEdge "e5-8" "5" "8" "Dispatch to sandbox engine"))
    as (_ & Hright & _).
  - vm_compute. reflexivity.
  - reflexivity.
  - vm_compute. reflexivity.
  - vm_compute. reflexivity.
  - vm_compute. lia.
  - apply Hright.
    + apply (proj1 (Forall_forall
               (λ e', source e' = "5" → target e' ≠ "8" →
                      targetXOf sampleLayout mockNodes mockEdges TB (target e')
                      < targetXOf sampleLayout mockNodes mockEdges TB "8")
               mockEdges)).
      match goal with |- ?G => apply (bool_decide_eq_true_1 G) end.
      vm_compute. reflexivity.
    + vm_compute. reflexivity.
Defined.

(* ===================================================================== *)
(** ** More theorems: complexity formatting *)
(* ===================================================================== *)

Section ComplexityMoreFacts.
Import Complexity.

(** X9. Whatever it is given, [formatComplexity] returns a non-empty text
    that contains a Big-O pattern O(...). *)
Theorem formatComplexity_shows_big_o (x : option string) :
  containsBigO (formatComplexity x) ∧ formatComplexity x ≠ "".
Proof.
  destruct x as [s|]; [|split; [by apply matchBigO_spec|done]].
  destruct s as [|c s]; [split; [by apply matchBigO_spec|done]|].
  unfold formatComplexity.
  destruct (matchBigO (String c s)) eqn:Hm.
  - split; [by apply matchBigO_spec|done].
  - split; [by apply matchBigO_spec|done].
Qed.

(** X10. A non-empty text is returned unchanged exactly when it contains a
    Big-O pattern; in either case the returned text ends with the given
    one. *)
Theorem formatComplexity_keeps_text (s : string) :
  s ≠ "" →
  (formatComplexity (Some s) = s ↔ containsBigO s)
  ∧ ∃ pre, formatComplexity (Some s) = pre ++ s.
Proof.
  intros Hne. destruct s as [|c s]; [done|].
  unfold formatComplexity.
  destruct (matchBigO (String c s)) eqn:Hm.
  - split; [|by exists ""]. split; [intros _; by apply matchBigO_spec|done].
  - split; [|by exists "O(n) - "]. split.
    + intros Heq. apply (f_equal String.length) in Heq. simpl in Heq. lia.
    + intros Hc. apply matchBigO_spec in Hc. congruence.
Qed.

End ComplexityMoreFacts.

(** A complexity given in words. *)
Lemma formatComplexity_keeps_text_witness :
  ∃ pre, Complexity.formatComplexity (Some "Linear in the input")
         = pre ++ "Linear in the input".
Proof.
  destruct (formatComplexity_keeps_text "Linear in the input") as (_ & Hpre).
  - discriminate.
  - exact Hpre.
Defined.

(* ===================================================================== *)
(** ** More theorems: the component *)
(* ===================================================================== *)

Section ViewMoreFacts.
Import View ViewSpec Screenshots Machine.

Variable dagre_layout : Layout.DagreGraph → string → Layout.XY.

(** *** Writing the cache *)

Lemma setQueryData_eq key data w :
  data ≠ JUndefined →
  exec (setQueryData subscriber key data) w
  = let w1 := match findQuery key (queryCache w) with
              | Some _ => w
              | None =>
                  exec (notify subscriber added
                          {| queryKey := key; query_data := JUndefined |})
                    (exec (putCache (queryCache w
                                     ++ [ {| queryKey := key;
                                             query_data := JUndefined |} ])%list) w)
              end in
    exec (notify subscriber updated {| queryKey := key; query_data := data |})
      (exec (putCache (map (setData key data) (queryCache w1))) w1).
Proof.
  intros Hdata. unfold setQueryData.
  destruct data; try done;
    rewrite exec_bind; simpl fst; simpl snd;
    (destruct (findQuery key (queryCache w)) as [q|] eqn:Hfind;
     [ by rewrite !exec_bind | by rewrite !exec_bind ]).
Qed.

Lemma findQuery_app key l1 l2 :
  findQuery key (l1 ++ l2)
  = match findQuery key l1 with
    | Some q => Some q
    | None => findQuery key l2
    end.
Proof.
  unfold findQuery. induction l1 as [|q l1 IH]; [done|].
  simpl. by destruct (sameKey key q).
Qed.

Lemma findQuery_setData key data key' l :
  findQuery key' (map (setData key data) l)
  = if decide (key' = key)
    then match findQuery key l with
         | Some _ => Some {| queryKey := key; query_data := data |}
         | None => None
         end
    else findQuery key' l.
Proof.
  unfold findQuery. induction l as [|q l IH]; simpl.
  - by destruct (decide (key' = key)).
  - rewrite IH. clear IH. unfold setData, sameKey.
    destruct (decide (key' = key)) as [->|Hk];
      repeat (case_bool_decide; simpl in *); simplify_eq; try done.
Qed.

Lemma notify_cache type q w :
  queryCache (exec (notify subscriber type q) w) = queryCache w.
Proof.
  by destruct (subscriber_world (Some {| event_type := type; event_query := q |}) w)
    as (Hc & _).
Qed.

Lemma setQueryData_find key data key' w :
  data ≠ JUndefined →
  findQuery key' (queryCache (exec (setQueryData subscriber key data) w))
  = if decide (key' = key)
    then Some {| queryKey := key; query_data := data |}
    else findQuery key' (queryCache w).
Proof.
  intros Hdata. rewrite setQueryData_eq by done. cbv zeta.
  rewrite notify_cache. simpl.
  rewrite findQuery_setData.
  destruct (findQuery key (queryCache w)) as [q|] eqn:Hfind.
  - by rewrite Hfind.
  - rewrite notify_cache. simpl. rewrite !findQuery_app, Hfind. simpl.
    unfold sameKey. rewrite bool_decide_eq_true_2 by done.
    destruct (decide (key' = key)) as [->|Hk]; [done|].
    destruct (findQuery key' (queryCache w)); [done|].
    simpl. unfold sameKey. simpl. by rewrite bool_decide_eq_false_2.
Qed.

(** What the listener preserves on every event for [key], [setQueryData]
    for [key] preserves. *)
Lemma setQueryData_preserves {T} (f : World → T) key data w :
  (∀ c w0, f (exec (putCache c) w0) = f w0) →
  (∀ type q w0, queryKey q = key →
                f (exec (notify subscriber type q) w0) = f w0) →
  f (exec (setQueryData subscriber key data) w) = f w.
Proof.
  intros Hput Hnotify.
  assert (Hcases : data = JUndefined ∨ data ≠ JUndefined)
    by (destruct data; (by left) || (by right)).
  destruct Hcases as [->|Hdata]; [done|].
  rewrite setQueryData_eq by done. cbv zeta.
  rewrite Hnotify, Hput by done.
  destruct (findQuery key (queryCache w)); [done|].
  by rewrite Hnotify, Hput.
Qed.

Lemma setQueryData_world key data w :
  let w' := exec (setQueryData subscriber key data) w in
  view w' = view w ∧ toasts w' = toasts w ∧ console w' = console w
  ∧ tasks w' = tasks w
  ∧ isResetting (state w') = isResetting (state w)
  ∧ extraScreenshots (state w') = extraScreenshots (state w)
  ∧ debugProcessing (state w') = debugProcessing (state w)
  ∧ activeSystemDesignSolutionTab (state w') = activeSystemDesignSolutionTab (state w).
Proof.
  pose (f := λ w0 : World,
          (view w0, toasts w0, console w0, tasks w0, isResetting (state w0),
           extraScreenshots (state w0), debugProcessing (state w0),
           activeSystemDesignSolutionTab (state w0))).
  assert (Hf : f (exec (setQueryData subscriber key data) w) = f w).
  { apply setQueryData_preserves; [done|].
    intros type q w0 _. unfold f, notify.
    destruct (subscriber_world (Some {| event_type := type; event_query := q |}) w0)
      as (_ & -> & -> & -> & -> & -> & -> & -> & ->). done. }
  unfold f in Hf. simpl. by injection Hf as -> -> -> -> -> -> -> ->.
Qed.

Lemma onResetView_clears_solutions_cache w :
  findQuery ["solution"] (queryCache (exec onResetView w)) = None
  ∧ findQuery ["new_solution"] (queryCache (exec onResetView w)) = None.
Proof.
  rewrite onResetView_cache. split.
  - rewrite find_filter_keep.
    + apply find_filter_drop. by intros q _ ->.
    + by intros q ->.
  - apply find_filter_drop. by intros q _ ->.
Qed.

(** *** The subscription *)

(** X11. A cache notification without an event, or for a query whose key
    starts with neither 'solution' nor 'problem_statement', changes
    nothing at all. *)
Theorem subscriber_ignores_other_keys (w : World) :
  exec (subscriber None) w = w
  ∧ ∀ ev : CacheEvent,
      head (queryKey (event_query ev)) ≠ Some "solution" →
      head (queryKey (event_query ev)) ≠ Some "problem_statement" →
      exec (subscriber (Some ev)) w = w.
Proof.
  split; [done|]. intros ev Hs Hp. unfold subscriber, keyHeadIs.
  destruct (queryKey (event_query ev)) as [|k rest]; [done|]. simpl in *.
  destruct (String.eqb_spec k "problem_statement") as [->|_]; [done|].
  destruct (String.eqb_spec k "solution") as [->|_]; done.
Qed.

(** *** The success handler *)

Lemma onSolutionSuccess_truthy data w :
  truthy data = true →
  let w' := exec (onSolutionSuccess data) w in
  findQuery ["solution"] (queryCache w')
  = Some {| queryKey := ["solution"]; query_data := solutionOf data |}
  ∧ (∀ key, key ≠ ["solution"] →
            findQuery key (queryCache w') = findQuery key (queryCache w))
  ∧ solutionFields w'
    = (orElse (getProp data "code") JNull,
       orElse (getProp data "thoughts") JNull,
       orElse (getProp data "time_complexity") JNull,
       orElse (getProp data "space_complexity") JNull)
  ∧ tasks w' = (tasks w ++ [FetchScreenshots])%list
  ∧ view w' = view w
  ∧ toasts w' = toasts w
  ∧ problemStatementData (state w') = problemStatementData (state w)
  ∧ activeSystemDesignSolutionTab (state w') = activeSystemDesignSolutionTab (state w).
Proof.
  intros Ht. cbv zeta. unfold onSolutionSuccess. rewrite Ht. simpl negb. cbv iota.
  fold (solutionOf data). rewrite !exec_bind.
  change ((setQueryData subscriber ["solution"] (solutionOf data)
             (consoleWrite "{ data }" w).2).2)
    with (exec (setQueryData subscriber ["solution"] (solutionOf data))
            (consoleWrite "{ data }" w).2).
  assert (Hfind : ∀ key,
            findQuery key
              (queryCache (exec (setQueryData subscriber ["solution"] (solutionOf data))
                             (consoleWrite "{ data }" w).2))
            = if decide (key = ["solution"])
              then Some {| queryKey := ["solution"]; query_data := solutionOf data |}
              else findQuery key (queryCache w)).
  { intros key. by rewrite setQueryData_find. }
  destruct (setQueryData_world ["solution"] (solutionOf data)
              (consoleWrite "{ data }" w).2)
    as (Hview & Htoasts & _ & Htasks & _ & _ & _ & Htab).
  assert (Hpsd : problemStatementData
                   (state (exec (setQueryData subscriber ["solution"] (solutionOf data))
                             (consoleWrite "{ data }" w).2))
                 = problemStatementData (state w)).
  { rewrite (setQueryData_preserves (λ w2, problemStatementData (state w2))); [done|done|].
    intros type q w2 Hk. apply subscriber_problemStatement. simpl. by rewrite Hk. }
  generalize dependent (exec (setQueryData subscriber ["solution"] (solutionOf data))
                          (consoleWrite "{ data }" w).2).
  intros w1 Hfind Hview Htoasts Htasks Htab Hpsd.
  simpl in Hview, Htoasts, Htasks, Htab.
  split; [|split; [|split; [|split; [|split; [|split; [|split]]]]]].
  - apply (Hfind ["solution"]).
  - intros key Hkey. specialize (Hfind key). by rewrite decide_False in Hfind.
  - done.
  - simpl. by rewrite Htasks.
  - simpl. by rewrite Hview.
  - simpl. by rewrite Htoasts.
  - simpl. by rewrite Hpsd.
  - simpl. by rewrite Htab.
Qed.

(** X12. The success handler ignores falsy data: it writes a warning to the
    console and leaves state, cache, view, toasts and pending work as they
    were. For truthy data it caches under 'solution' an object with the
    four fields of the data, leaves every other query alone, sets the four
    local fields to those of the data (null where falsy) and leaves one
    screenshot fetch to be done. *)
Theorem onSolutionSuccess_effect (data : JsValue) (w : World) :
  let w' := exec (onSolutionSuccess data) w in
  (truthy data = false →
     state w' = state w ∧ queryCache w' = queryCache w ∧ view w' = view w
     ∧ toasts w' = toasts w ∧ tasks w' = tasks w
     ∧ console w' = (console w ++ ["Received empty or invalid solution data"])%list)
  ∧ (truthy data = true →
     cached ["solution"] w' = solutionOf data
     ∧ (∀ key, key ≠ ["solution"] →
               findQuery key (queryCache w') = findQuery key (queryCache w))
     ∧ solutionFields w'
       = (orElse (getProp data "code") JNull,
          orElse (getProp data "thoughts") JNull,
          orElse (getProp data "time_complexity") JNull,
          orElse (getProp data "space_complexity") JNull)
     ∧ tasks w' = (tasks w ++ [FetchScreenshots])%list
     ∧ view w' = view w
     ∧ toasts w' = toasts w).
Proof.
  simpl. split; intros Ht.
  - unfold onSolutionSuccess. rewrite Ht. done.
  - destruct (onSolutionSuccess_truthy data w Ht)
      as (Hfind & Hother & Hfields & Htasks & Hview & Htoasts & _).
    unfold cached. rewrite Hfind. done.
Qed.

(** X13. An error after a restart brings the solution back: after a
    success with truthy data, a solution-start followed by a
    solution-error leaves the four local fields, the cache and the view as
    the success left them. *)
Theorem error_after_restart_restores (data : JsValue) (error : string) (w : World) :
  truthy data = true →
  let w1 := exec (onSolutionSuccess data) w in
  let w2 := exec (onSolutionError error) (exec onSolutionStart w1) in
  solutionFields w2 = solutionFields w1
  ∧ queryCache w2 = queryCache w1
  ∧ view w2 = view w1.
Proof.
  intros Ht. simpl.
  destruct (onSolutionSuccess_truthy data w Ht) as (Hfind & _ & Hfields & _).
  set (w1 := exec (onSolutionSuccess data) w) in *.
  rewrite Hfields.
  unfold onSolutionError. rewrite !exec_bind.
  rewrite getQueryData_snd, !getQueryData_fst.
  change (cached ["solution"]
            (showToast "Processing Failed" error "error" (exec onSolutionStart w1)).2)
    with (cached ["solution"] w1).
  unfold cached. rewrite Hfind. done.
Qed.

(** *** The problem statement *)

(** X14. A problem pushed by the host is cached and shown: after
    [onProblemExtracted] with truthy data, the data is what is cached under
    'problem_statement' and what [problemStatementData] holds, while the
    four solution fields, the other queries and the view are unchanged. *)
Theorem onProblemExtracted_round_trip (data : JsValue) (w : World) :
  truthy data = true →
  let w' := exec (onProblemExtracted data) w in
  cached ["problem_statement"] w' = data
  ∧ problemStatementData (state w') = data
  ∧ solutionFields w' = solutionFields w
  ∧ (∀ key, key ≠ ["problem_statement"] →
            findQuery key (queryCache w') = findQuery key (queryCache w))
  ∧ view w' = view w.
Proof.
  intros Ht. simpl. unfold onProblemExtracted.
  assert (Hdata : data ≠ JUndefined) by (by destruct data).
  split; [|split; [|split; [|split]]].
  - unfold cached. rewrite setQueryData_find by done. by rewrite decide_True.
  - rewrite setQueryData_eq by done. cbv zeta. unfold notify at 1.
    rewrite subscriber_problem_event by done.
    unfold cached. simpl. rewrite findQuery_setData, decide_True by done.
    destruct (findQuery ["problem_statement"] (queryCache w)) as [q|] eqn:Hfind.
    + rewrite Hfind. simpl. unfold orElse. by rewrite Ht.
    + rewrite notify_cache. simpl. rewrite findQuery_app, Hfind. simpl.
      unfold orElse. by rewrite Ht.
  - apply setQueryData_preserves; [done|].
    intros type q w0 Hk.
    destruct (subscriber_other_event
                (Some {| event_type := type; event_query := q |}) w0)
      as (Ha & Hb & Hc & Hd).
    { simpl. by rewrite Hk. }
    unfold solutionFields, notify. by rewrite Ha, Hb, Hc, Hd.
  - intros key Hkey. rewrite setQueryData_find by done. by rewrite decide_False.
  - by destruct (setQueryData_world ["problem_statement"] data w) as (Hview & _).
Qed.

(** *** The debug view *)

Lemma Forall_jsxAnd (P : Element → Prop) cond children :
  P (Text "0") → Forall P children → Forall P (jsxAnd cond children).
Proof.
  intros H0 Hc. unfold jsxAnd. destruct (truthy cond); [done|].
  destruct cond; by repeat constructor.
Qed.

Lemma Forall_jsxWhen (P : Element → Prop) cond children :
  Forall P children → Forall P (jsxWhen cond children).
Proof. intros Hc. destruct cond; [done|constructor]. Qed.

Lemma render_without_debug props w :
  showsDebug w = false →
  Forall (λ e, isDebugView e = false) (render dagre_layout props w).
Proof.
  intros Hd. unfold render. unfold showsDebug, cached in Hd. rewrite Hd.
  repeat (apply Forall_app; split);
    repeat (first [ apply Forall_jsxAnd; [done|]
                  | apply Forall_jsxWhen
                  | apply Forall_app; split ]);
    by repeat constructor.
Qed.

Lemma onResetView_world w :
  let w' := exec onResetView w in
  view w' = view w ∧ toasts w' = toasts w ∧ console w' = console w
  ∧ tasks w' = (tasks w ++ [ClearResetting])%list
  ∧ isResetting (state w') = true
  ∧ debugProcessing (state w') = debugProcessing (state w)
  ∧ activeSystemDesignSolutionTab (state w') = activeSystemDesignSolutionTab (state w).
Proof.
  simpl. rewrite onResetView_eq.
  pose (f := λ w0 : World,
          (view w0, toasts w0, console w0, tasks w0, isResetting (state w0),
           debugProcessing (state w0), activeSystemDesignSolutionTab (state w0))).
  assert (Hstep : ∀ key w0, f (exec (removeQueries subscriber key) w0) = f w0).
  { intros key w0. apply removeQueries_preserves; [done|].
    intros q w1 _. unfold f, notify.
    destruct (subscriber_world (Some {| event_type := removed; event_query := q |}) w1)
      as (_ & -> & -> & -> & -> & -> & _ & -> & ->). done. }
  assert (H2 : f (exec (removeQueries subscriber ["new_solution"])
                    (exec (removeQueries subscriber ["solution"])
                       (exec (setIsResetting true) w)))
               = f (exec (setIsResetting true) w)) by (by rewrite !Hstep).
  unfold f in H2. simpl in H2.
  injection H2 as Hview Htoasts Hconsole Htasks Hreset Hdebug Htab.
  simpl. by rewrite Hview, Htoasts, Hconsole, Htasks, Hreset, Hdebug, Htab.
Qed.

(** X15. A debugged solution takes over the view and a reset gives it
    back. After [onDebugSuccess] with truthy data, unless a reset is under
    way, the component renders the debug view and nothing else, with its
    processing flag off. After a reset the debug view is not rendered, and
    it stays away when the timer of the reset has fired. *)
Theorem debug_view_lifecycle (props : Props) (data : JsValue) (w : World) :
  (truthy data = true → isResetting (state w) = false →
     render dagre_layout props (exec (onDebugSuccess data) w)
     = [ DebugView false (currentLanguage props) (currentInterviewMode props) ])
  ∧ Forall (λ e, isDebugView e = false)
      (render dagre_layout props (exec onResetView w))
  ∧ Forall (λ e, isDebugView e = false)
      (render dagre_layout props (exec onResetTimeout (exec onResetView w))).
Proof.
  split; [|split].
  - intros Ht Hr. unfold onDebugSuccess. rewrite exec_bind.
    assert (Hdata : data ≠ JUndefined) by (by destruct data).
    pose proof (setQueryData_find ["new_solution"] data ["new_solution"] w Hdata)
      as Hfind.
    rewrite decide_True in Hfind by done.
    destruct (setQueryData_world ["new_solution"] data w)
      as (_ & _ & _ & _ & Hreset & _).
    change ((setQueryData subscriber ["new_solution"] data w).2)
      with (exec (setQueryData subscriber ["new_solution"] data) w).
    generalize dependent (exec (setQueryData subscriber ["new_solution"] data) w).
    intros w1 Hfind Hreset. unfold render. simpl.
    rewrite Hfind, Hreset, Hr. simpl. by rewrite Ht.
  - apply render_without_debug. unfold showsDebug, cached.
    destruct (onResetView_clears_solutions_cache w) as (_ & ->). simpl.
    by rewrite ?andb_false_r.
  - apply render_without_debug. unfold showsDebug, cached.
    change (queryCache (exec onResetTimeout (exec onResetView w)))
      with (queryCache (exec onResetView w)).
    destruct (onResetView_clears_solutions_cache w) as (_ & ->). simpl.
    by rewrite ?andb_false_r.
Qed.

(** *** The reset handler *)

(** X16. A reset touches nothing but the solutions: every query whose key
    starts with neither 'solution' nor 'new_solution' is still cached with
    the same data; the view, the toasts, the console, the debug-processing
    flag and the active tab are unchanged; the resetting flag is set and
    exactly one timer is left pending, and when that timer fires the flag
    is cleared again. *)
Theorem onResetView_frame (w : World) :
  let w' := exec onResetView w in
  (∀ key, head key ≠ Some "solution" → head key ≠ Some "new_solution" →
          findQuery key (queryCache w') = findQuery key (queryCache w))
  ∧ view w' = view w
  ∧ toasts w' = toasts w
  ∧ console w' = console w
  ∧ debugProcessing (state w') = debugProcessing (state w)
  ∧ activeSystemDesignSolutionTab (state w') = activeSystemDesignSolutionTab (state w)
  ∧ isResetting (state w') = true
  ∧ tasks w' = (tasks w ++ [ClearResetting])%list
  ∧ isResetting (state (exec onResetTimeout w')) = false.
Proof.
  simpl.
  destruct (onResetView_world w)
    as (Hview & Htoasts & Hconsole & Htasks & Hreset & Hdebug & Htab).
  split; [|by repeat split].
  intros key Hs Hn. rewrite onResetView_cache.
  rewrite !find_filter_keep; [done| |].
  - intros q <-. destruct (queryKey q) as [|k rest]; [done|]. simpl in *.
    destruct (String.eqb_spec k "solution") as [->|_]; done.
  - intros q <-. destruct (queryKey q) as [|k rest]; [done|]. simpl in *.
    destruct (String.eqb_spec k "new_solution") as [->|_]; done.
Qed.

(** *** Invariants of the machine *)

Lemma findQuery_Some key cache q :
  findQuery key cache = Some q → q ∈ cache ∧ queryKey q = key.
Proof.
  unfold findQuery. intros Hfind. apply find_some in Hfind as [Hin Hk].
  split; [by apply list_elem_of_In|].
  unfold sameKey in Hk. by apply bool_decide_eq_true in Hk.
Qed.

Lemma fieldsBacked_same w' w :
  queryCache w' = queryCache w → solutionFields w' = solutionFields w →
  fieldsBacked w → fieldsBacked w'.
Proof.
  unfold fieldsBacked, solutionFieldsNull, solutionFields.
  intros Hc Hf Hinv Hnone. rewrite Hc in Hnone.
  destruct (Hinv Hnone) as (Ha & Hb & Hc' & Hd).
  injection Hf as -> -> -> ->. done.
Qed.

Lemma onMount_fieldsBacked w : fieldsBacked w → fieldsBacked (exec onMount w).
Proof.
  unfold fieldsBacked, solutionFieldsNull. intros Hinv Hnone.
  unfold onMount in *. rewrite !exec_bind in *.
  rewrite ?getQueryData_snd, ?getQueryData_fst in *. simpl in *.
  destruct (Hinv Hnone) as (_ & Hb & Hc & Hd).
  unfold cached. simpl. by rewrite Hnone.
Qed.

Lemma onSolutionError_fieldsBacked error w :
  fieldsBacked (exec (onSolutionError error) w).
Proof.
  unfold fieldsBacked, solutionFieldsNull, onSolutionError.
  rewrite !exec_bind. rewrite getQueryData_snd, !getQueryData_fst.
  change (cached ["solution"] (showToast "Processing Failed" error "error" w).2)
    with (cached ["solution"] w).
  unfold cached.
  destruct (findQuery ["solution"] (queryCache w)) as [q|] eqn:Hfind.
  - intros Hnone. exfalso. revert Hnone. by destruct (truthy (query_data q)); simpl; rewrite Hfind.
  - by intros _.
Qed.

Lemma removeQueries_new_solution_fields w :
  solutionFields (exec (removeQueries subscriber ["new_solution"]) w)
  = solutionFields w.
Proof.
  apply removeQueries_preserves; [done|].
  intros q w0 (rest & Hk)%partialMatchKey_head.
  destruct (subscriber_other_event
              (Some {| event_type := removed; event_query := q |}) w0)
    as (Ha & Hb & Hc & Hd).
  { simpl. by rewrite Hk. }
  unfold solutionFields, notify. by rewrite Ha, Hb, Hc, Hd.
Qed.

Lemma onResetView_fieldsBacked w : fieldsBacked w → fieldsBacked (exec onResetView w).
Proof.
  intros Hinv _.
  destruct (filter (λ q, partialMatchKey (queryKey q) ["solution"] = true)
              (queryCache w)) as [|q found] eqn:Hfound.
  - assert (Hnone : findQuery ["solution"] (queryCache w) = None).
    { destruct (findQuery ["solution"] (queryCache w)) as [q|] eqn:Hfind; [|done].
      apply findQuery_Some in Hfind as [Hin Hk].
      assert (Hmem : q ∈ filter (λ q, partialMatchKey (queryKey q) ["solution"] = true)
                         (queryCache w)).
      { apply list_elem_of_filter. split; [|done]. rewrite Hk. done. }
      rewrite Hfound in Hmem. by apply not_elem_of_nil in Hmem. }
    specialize (Hinv Hnone).
    assert (Hsame : solutionFields (exec onResetView w) = solutionFields w).
    { rewrite onResetView_eq.
      change (solutionFields
                (exec (removeQueries subscriber ["new_solution"])
                   (exec (removeQueries subscriber ["solution"])
                      (exec (setIsResetting true) w)))
              = solutionFields w).
      rewrite removeQueries_new_solution_fields, removeQueries_eq.
      change (queryCache (exec (setIsResetting true) w)) with (queryCache w).
      by rewrite Hfound. }
    unfold solutionFieldsNull, solutionFields in *.
    destruct Hinv as (Ha & Hb & Hc & Hd). rewrite Ha, Hb, Hc, Hd in Hsame.
    by injection Hsame as -> -> -> ->.
  - apply onResetView_clears_fields. exists q.
    assert (Hmem : q ∈ filter (λ q, partialMatchKey (queryKey q) ["solution"] = true)
                       (queryCache w)) by (rewrite Hfound; apply list_elem_of_here).
    apply list_elem_of_filter in Hmem as [Hm Hin]. done.
Qed.

Lemma setQueryData_other_fieldsBacked key data w :
  head key ≠ Some "solution" →
  fieldsBacked w → fieldsBacked (exec (setQueryData subscriber key data) w).
Proof.
  intros Hkey Hinv.
  assert (Hcases : data = JUndefined ∨ data ≠ JUndefined)
    by (destruct data; (by left) || (by right)).
  destruct Hcases as [->|Hdata]; [done|].
  assert (Hfields : solutionFields (exec (setQueryData subscriber key data) w)
                    = solutionFields w).
  { apply setQueryData_preserves; [done|].
    intros type q w0 Hk.
    destruct (subscriber_other_event
                (Some {| event_type := type; event_query := q |}) w0)
      as (Ha & Hb & Hc & Hd).
    { simpl. rewrite Hk. destruct key as [|k rest]; [done|]. simpl in *.
      destruct (String.eqb_spec k "solution") as [->|_]; done. }
    unfold solutionFields, notify. by rewrite Ha, Hb, Hc, Hd. }
  unfold fieldsBacked, solutionFieldsNull, solutionFields in *. intros Hnone.
  rewrite setQueryData_find in Hnone by done.
  rewrite decide_False in Hnone by (intros <-; done).
  destruct (Hinv Hnone) as (Ha & Hb & Hc & Hd). rewrite Ha, Hb, Hc, Hd in Hfields.
  by injection Hfields as -> -> -> ->.
Qed.

Lemma handle_fieldsBacked ev w :
  fieldsBacked w → fieldsBacked (exec (handle ev) w).
Proof.
  intros Hinv. destruct ev; simpl handle.
  - by apply onMount_fieldsBacked.
  - by apply onResetView_fieldsBacked.
  - by apply (fieldsBacked_same _ w).
  - by intros _.
  - unfold onProblemExtracted. by apply setQueryData_other_fieldsBacked.
  - apply onSolutionError_fieldsBacked.
  - destruct (truthy data) eqn:Ht.
    + destruct (onSolutionSuccess_truthy data w Ht) as (Hfind & _).
      unfold fieldsBacked. by rewrite Hfind.
    + unfold onSolutionSuccess. rewrite Ht. by apply (fieldsBacked_same _ w).
  - by apply (fieldsBacked_same _ w).
  - unfold onDebugSuccess. rewrite exec_bind.
    apply (fieldsBacked_same _ (exec (setQueryData subscriber ["new_solution"] data) w));
      [done|done|].
    by apply setQueryData_other_fieldsBacked.
  - by apply (fieldsBacked_same _ w).
  - by apply (fieldsBacked_same _ w).
  - destruct (TABS !! i); by apply (fieldsBacked_same _ w).
  - destruct existing; by apply (fieldsBacked_same _ w).
  - destruct existing; by apply (fieldsBacked_same _ w).
  - destruct existing as [[| |[]]|]; by apply (fieldsBacked_same _ w).
  - rewrite exec_bind. unfold handleDeleteExtraScreenshot.
    destruct (screenshotAt index (extraScreenshots (state w)));
      [destruct response as [r|]; [destruct (success r); [destruct existing|]|]|];
      by apply (fieldsBacked_same _ w).
  - by apply (fieldsBacked_same _ w).
Qed.

Lemma handle_activeTabKnown ev w :
  activeTabKnown w → activeTabKnown (exec (handle ev) w).
Proof.
  unfold activeTabKnown. intros Hinv. destruct ev; simpl handle; try done.
  - by destruct (onResetView_world w) as (_ & _ & _ & _ & _ & _ & ->).
  - unfold onProblemExtracted.
    by destruct (setQueryData_world ["problem_statement"] data w)
      as (_ & _ & _ & _ & _ & _ & _ & ->).
  - unfold onSolutionError. rewrite !exec_bind.
    rewrite getQueryData_snd, !getQueryData_fst.
    by destruct (truthy _).
  - destruct (truthy data) eqn:Ht.
    + by destruct (onSolutionSuccess_truthy data w Ht)
        as (_ & _ & _ & _ & _ & _ & _ & ->).
    + unfold onSolutionSuccess. by rewrite Ht.
  - unfold onDebugSuccess. rewrite exec_bind. simpl.
    change ((setQueryData subscriber ["new_solution"] data w).2)
      with (exec (setQueryData subscriber ["new_solution"] data) w).
    by destruct (setQueryData_world ["new_solution"] data w)
      as (_ & _ & _ & _ & _ & _ & _ & ->).
  - destruct (TABS !! i) as [tab|] eqn:Htab; [|done].
    simpl. by eapply list_elem_of_lookup_2.
  - by destruct existing.
  - by destruct existing.
  - by destruct existing as [[| |[]]|].
  - rewrite exec_bind. unfold handleDeleteExtraScreenshot.
    destruct (screenshotAt index (extraScreenshots (state w)));
      [destruct response as [r|]; [destruct (success r); [destruct existing|]|]|];
      done.
Qed.

Lemma run_keeps_invariants (events : list Event) (w0 : World) :
  state w0 = initialState →
  fieldsBacked (run events w0) ∧ activeTabKnown (run events w0).
Proof.
  intros Hinit.
  assert (H0 : fieldsBacked w0 ∧ activeTabKnown w0).
  { unfold fieldsBacked, solutionFieldsNull, activeTabKnown. rewrite Hinit.
    split; [done|]. simpl. unfold TABS. set_solver. }
  clear Hinit. revert w0 H0. unfold run.
  induction events as [|ev events IH]; intros w0 [Hf Ht]; [done|].
  simpl. apply IH. split.
  - by apply handle_fieldsBacked.
  - by apply handle_activeTabKnown.
Qed.

(** X17. Two invariants hold after every sequence of events on a freshly
    mounted component, whatever the cache held before: when no solution is
    cached the four local solution fields are null, and the active tab is
    one of the five tabs of the tab bar. *)
Theorem machine_invariants (events : list Event) (w0 : World) :
  state w0 = initialState →
  fieldsBacked (run events w0) ∧ activeTabKnown (run events w0).
Proof. apply run_keeps_invariants. Qed.

Lemma tab_content_single props w :
  activeTabKnown w →
  showsDebug w = false →
  currentInterviewMode props = "SystemDesign" →
  ∃ c, filter isTabContent (render dagre_layout props w) = [c].
Proof.
  intros Htab Hd Hmode. unfold render. unfold showsDebug, cached in Hd. rewrite Hd.
  generalize (diagram dagre_layout). intros d.
  destruct props as [cr lang mode]. simpl in Hmode. subst mode.
  cbn [currentInterviewMode currentLanguage credits]. cbv zeta.
  rewrite !filter_app, !filter_jsxAnd, !filter_jsxWhen by done.
  rewrite ?filter_jsxWhen. simpl.
  unfold activeTabKnown, TABS in Htab.
  repeat (apply elem_of_cons in Htab as [Htab|Htab]);
    [rewrite Htab; simpl; destruct (truthy (solutionData (state w))); by eexists ..|].
  by apply elem_of_nil in Htab.
Qed.

(** X18. In every state a freshly mounted component can reach, if the mode
    is 'SystemDesign' and the debug view is not shown, exactly one tab
    content is rendered. *)
Theorem one_tab_content_in_reach (events : list Event) (w0 : World) (props : Props) :
  state w0 = initialState →
  currentInterviewMode props = "SystemDesign" →
  showsDebug (run events w0) = false →
  ∃ c, filter isTabContent (render dagre_layout props (run events w0)) = [c].
Proof.
  intros Hinit Hmode Hd.
  destruct (run_keeps_invariants events w0 Hinit) as [_ Htab].
  by apply tab_content_single.
Qed.

(** *** Screenshots *)

(** X19. The screenshots shown are the previews the host returned, in the
    same order, each with its path as id; anything but an array gives the
    empty list. *)
Theorem screenshots_follow_previews (clock : nat → Z) (existing : ScreenshotsResult)
    (w : World) :
  let shown := extraScreenshots
                 (state (exec (onScreenshotTaken clock (Fulfilled existing)) w)) in
  (∀ items, existing = PreviewArray items →
     map screenshot_path shown = map preview_path items
     ∧ map screenshot_id shown = map preview_path items
     ∧ map screenshot_preview shown = map preview_data items
     ∧ ∀ i s, shown !! i = Some s → screenshot_timestamp s = clock i)
  ∧ ((∀ items, existing ≠ PreviewArray items) → shown = []).
Proof.
  simpl. split.
  - intros items ->. simpl. unfold toScreenshots.
    repeat split.
    + apply list_eq. intros i.
      rewrite !list_lookup_fmap, list_lookup_imap. by destruct (items !! i).
    + apply list_eq. intros i.
      rewrite !list_lookup_fmap, list_lookup_imap. by destruct (items !! i).
    + apply list_eq. intros i.
      rewrite !list_lookup_fmap, list_lookup_imap. by destruct (items !! i).
    + intros i s. rewrite list_lookup_imap.
      destruct (items !! i); [|done]. simpl. by intros [= <-].
  - intros Hnot. destruct existing as [|items|previews]; [done| |done].
    by destruct (Hnot items).
Qed.

(** X20. When fetching the screenshots fails, the effect that follows
    [solutionData] and the fetch after a success clear the list, while the
    screenshot-taken handler keeps the list it had; none of them shows a
    toast or touches the cache. *)
Theorem failed_fetch_behaviour (clock : nat → Z) (w : World) :
  let w1 := exec (fetchScreenshots clock Rejected) w in
  let w2 := exec (fetchScreenshotsAfterSuccess clock Rejected) w in
  let w3 := exec (onScreenshotTaken clock Rejected) w in
  extraScreenshots (state w1) = []
  ∧ extraScreenshots (state w2) = []
  ∧ extraScreenshots (state w3) = extraScreenshots (state w)
  ∧ toasts w1 = toasts w ∧ toasts w2 = toasts w ∧ toasts w3 = toasts w
  ∧ queryCache w1 = queryCache w ∧ queryCache w2 = queryCache w
  ∧ queryCache w3 = queryCache w.
Proof. done. Qed.

(** X21. The two ways of reading the host's answer exclude each other:
    whatever [getScreenshots] resolves to, the list set by the effect (which
    wants an array) or the list set after a success (which wants an object
    with [previews]) is empty. *)
Theorem fetch_paths_exclude (clock1 clock2 : nat → Z) (existing : ScreenshotsResult)
    (w1 w2 : World) :
  extraScreenshots (state (exec (fetchScreenshots clock1 (Fulfilled existing)) w1)) = []
  ∨ extraScreenshots
      (state (exec (fetchScreenshotsAfterSuccess clock2 (Fulfilled existing)) w2)) = [].
Proof.
  destruct existing as [|items|[items|]]; [by left|by right|by left|by left].
Qed.

(** An index names a screenshot exactly when it is a position of the list. *)
Lemma screenshotAt_in_range (index : Z) (screenshots : list Screenshot) :
  is_Some (screenshotAt index screenshots)
  ↔ 0 ≤ index < Z.of_nat (length screenshots).
Proof.
  unfold screenshotAt. destruct (Z.ltb_spec index 0) as [Hneg|Hpos].
  - split; [by intros [? ?]|lia].
  - rewrite lookup_lt_is_Some. lia.
Qed.

Lemma screenshotAt_out_of_range (index : Z) (screenshots : list Screenshot) :
  index < 0 ∨ Z.of_nat (length screenshots) ≤ index →
  screenshotAt index screenshots = None.
Proof.
  intros Hout. destruct (screenshotAt index screenshots) as [s|] eqn:Hs; [|done].
  assert (Hsome : is_Some (screenshotAt index screenshots)) by (by rewrite Hs).
  apply screenshotAt_in_range in Hsome. lia.
Qed.

(** X22. A deletion that fails leaves the screenshots alone and says so.
    If the index is negative or not below the length of the list, the
    bridge is not called at all; if [deleteScreenshot] rejects or answers
    without success, or the fetch that follows a success rejects, the list
    is as before. In each of these cases the state, the cache and the view
    are unchanged and exactly one error toast 'Failed to delete the
    screenshot' is added. *)
Theorem failed_delete_keeps_screenshots (clock : nat → Z) (index : Z)
    (response : Settled DeleteResponse) (existing : Settled ScreenshotsResult)
    (w : World) :
  (index < 0 ∨ Z.of_nat (length (extraScreenshots (state w))) ≤ index)
  ∨ response = Rejected
  ∨ (∃ r, response = Fulfilled r ∧ success r = false)
  ∨ existing = Rejected →
  let result := handleDeleteExtraScreenshot clock index response existing w in
  state result.2 = state w
  ∧ queryCache result.2 = queryCache w
  ∧ view result.2 = view w
  ∧ toasts result.2
    = (toasts w ++ [ {| toast_title := "Error";
                        toast_description := "Failed to delete the screenshot";
                        toast_variant := "error" |} ])%list
  ∧ (index < 0 ∨ Z.of_nat (length (extraScreenshots (state w))) ≤ index →
     result.1 = []).
Proof.
  intros Hfail. simpl. unfold handleDeleteExtraScreenshot.
  destruct (screenshotAt index (extraScreenshots (state w))) as [shot|] eqn:Hshot.
  - assert (Hin : ¬ (index < 0 ∨ Z.of_nat (length (extraScreenshots (state w))) ≤ index)).
    { intros Hout. apply screenshotAt_out_of_range in Hout. congruence. }
    destruct response as [r|]; [|by repeat split].
    destruct (success r) eqn:Hr; [|by repeat split].
    destruct existing as [e|]; [|by repeat split].
    exfalso. destruct Hfail as [?|[?|[(r' & [= <-] & Hr')|?]]]; by try congruence.
  - by repeat split.
Qed.

(** X23. A deletion that succeeds replaces the list by what the host then
    returns: for an index that names a screenshot, a successful answer and
    a fetch that resolves, [deleteScreenshot] is called with the path of
    that screenshot, then [getScreenshots]; the new list is the returned
    previews (empty unless an array), whatever the list was, and no toast
    is shown. *)
Theorem successful_delete_reloads (clock : nat → Z) (index : Z) (shot : Screenshot)
    (r : DeleteResponse) (existing : ScreenshotsResult) (w : World) :
  screenshotAt index (extraScreenshots (state w)) = Some shot →
  success r = true →
  let result := handleDeleteExtraScreenshot clock index (Fulfilled r)
                  (Fulfilled existing) w in
  result.1 = [ DeleteScreenshotCall (screenshot_path shot); GetScreenshotsCall ]
  ∧ extraScreenshots (state result.2) = toScreenshots clock (arrayOrEmpty existing)
  ∧ toasts result.2 = toasts w
  ∧ queryCache result.2 = queryCache w.
Proof.
  intros Hshot Hr. simpl. unfold handleDeleteExtraScreenshot.
  rewrite Hshot, Hr. done.
Qed.

(** *** Content size *)

(** X24. The size reported to the host: nothing while the content is not
    mounted; otherwise the width is 1400 in mode 'SystemDesign' and the
    width of the content in any other mode, and after a tooltip change the
    height is that of the content plus the height of the tooltip if it is
    visible, and that of the content alone if it is hidden. *)
Theorem reported_dimensions (visible : bool) (height : Z)
    (current : ContentElement) (props : Props) (w : World) :
  let s := state (exec (handleTooltipVisibilityChange visible height) w) in
  updateDimensions None props s = None
  ∧ ∃ d, updateDimensions (Some current) props s = Some d
         ∧ dimensions_height d
           = scrollHeight current + (if visible then height else 0)
         ∧ (currentInterviewMode props = "SystemDesign" → dimensions_width d = 1400)
         ∧ (currentInterviewMode props ≠ "SystemDesign" →
            dimensions_width d = scrollWidth current).
Proof.
  simpl. split; [done|]. eexists. split; [done|]. simpl. split; [|split].
  - destruct visible; lia.
  - by intros ->.
  - intros Hmode. by destruct (String.eqb_spec (currentInterviewMode props) "SystemDesign").
Qed.

End ViewMoreFacts.

Import View ViewSpec Screenshots Machine.

(** The sample solution, restarted and failed. *)
Lemma error_after_restart_restores_witness :
  solutionFields
    (exec (onSolutionError "timeout")
       (exec onSolutionStart (exec (onSolutionSuccess sampleSolution) initialWorld)))
  = solutionFields (exec (onSolutionSuccess sampleSolution) initialWorld).
Proof.
  destruct (error_after_restart_restores sampleSolution "timeout" initialWorld)
    as (Hfields & _).
  - reflexivity.
  - exact Hfields.
Defined.

(** The sample problem pushed into a fresh component. *)
Lemma onProblemExtracted_round_trip_witness :
  problemStatementData (state (exec (onProblemExtracted sampleProblem) initialWorld))
  = sampleProblem.
Proof.
  destruct (onProblemExtracted_round_trip sampleProblem initialWorld)
    as (_ & Hshown & _).
  - reflexivity.
  - exact Hshown.
Defined.

(** The sample session from a fresh component. *)
Lemma machine_invariants_witness :
  fieldsBacked (run sampleSession initialWorld)
  ∧ activeTabKnown (run sampleSession initialWorld).
Proof.
  apply (machine_invariants sampleSession initialWorld). reflexivity.
Defined.

(** After the sample session the Tradeoff tab is the one shown. *)
Lemma one_tab_content_in_reach_witness :
  ∃ c, filter isTabContent
         (render Layout.sampleLayout systemDesignProps (run sampleSession initialWorld))
       = [c].
Proof.
  apply (one_tab_content_in_reach Layout.sampleLayout sampleSession initialWorld
           systemDesignProps).
  - reflexivity.
  - reflexivity.
  - vm_compute. reflexivity.
Defined.

(** Deleting the third of two screenshots. *)
Lemma failed_delete_keeps_screenshots_witness :
  extraScreenshots
    (state (handleDeleteExtraScreenshot sampleClock 2
              (Fulfilled {| success := true; delete_error := None |})
              (Fulfilled (PreviewArray [])) screenshotWorld).2)
  = extraScreenshots (state screenshotWorld).
Proof.
  destruct (failed_delete_keeps_screenshots sampleClock 2
              (Fulfilled {| success := true; delete_error := None |})
              (Fulfilled (PreviewArray [])) screenshotWorld) as (Hstate & _).
  - left. right. vm_compute. discriminate.
  - by rewrite Hstate.
Defined.

(** Deleting the second of two screenshots; the host then returns the first. *)
Lemma successful_delete_reloads_witness :
  (handleDeleteExtraScreenshot sampleClock 1
     (Fulfilled {| success := true; delete_error := None |})
     (Fulfilled (PreviewArray (take 1 samplePreviews))) screenshotWorld).1
  = [ DeleteScreenshotCall "/tmp/shot-2.png"; GetScreenshotsCall ].
Proof.
  destruct (successful_delete_reloads sampleClock 1
              {| screenshot_id := "/tmp/shot-2.png";
                 screenshot_path := "/tmp/shot-2.png";
                 screenshot_preview := "data:image/png;base64,BBBB";
                 screenshot_timestamp := 1700000000001 |}
              {| success := true; delete_error := None |}
              (PreviewArray (take 1 samplePreviews)) screenshotWorld)
    as (Hcalls & _).
  - vm_compute. reflexivity.
  - reflexivity.
  - exact Hcalls.
Defined.
